(** * The extension-type Factory of msgpack-ruby

    A shallow embedding of [ext/msgpack/factory_class.c]: the Ruby values the
    file inspects, the part of the Ruby C API it calls, the object store in
    which factories, packers and unpackers live, and the methods of
    [MessagePack::Factory]: the allocator, [initialize], [packer], [unpacker]
    and [register_type].  Ruby exceptions are results of an error monad that
    threads the store, so that a raise returns the store as it was at the
    point of the [rb_raise].

    The extension registries and the packer and unpacker classes are written
    in other files of the extension; they are modelled here from their
    specification, and say so. *)

From Stdlib Require Import ZArith String List.
From stdpp Require Import base option list gmap strings.

Local Open Scope Z_scope.
Local Open Scope string_scope.

(** ** Ruby values *)

(** Addresses of heap objects wrapped with [Data_Wrap_Struct] and of the
    storage of extension registries. *)
Abbreviation addr := nat.

(** What the runtime knows of a class or module object: its name, which is its
    identity, the methods the object itself answers to, and the methods its
    instances answer to. *)
Record RClass := {
  class_name : string;
  class_methods : list string;
  instance_methods : list string
}.

(** A [VALUE] as [Factory_register_type] can tell values apart.  A [Float] is
    kept as the integer left when its fractional part is discarded ([None]
    for NaN and the infinities), the one observation [rb_num2int] makes of it.
    An [Object] carries its class name and, for each method it answers to, the
    value a call without arguments returns. *)
#[local] Set Warnings "-register-all".
Inductive VALUE :=
| Qnil
| Qtrue
| Qfalse
| Integer (n : Z)
| Float (truncated : option Z)
| Symbol (name : string)
| String (s : string)
| Hash (entries : list (VALUE * VALUE))
| Class (c : RClass)
| Module (c : RClass)
| Proc (id : nat)
| SymbolProc (name : string)
| MethodProc (receiver : VALUE) (name : string)
| Method (receiver : VALUE) (name : string)
| Object (klass : string) (methods : list (string * VALUE))
| Data (a : addr).

#[global] Instance RClass_eq_dec : EqDecision RClass.
Proof. solve_decision. Defined.

Definition VALUE_eq_dec : forall x y : VALUE, Decision (x = y).
Proof.
  fix IH 1.
  assert (IHl : forall l k : list (VALUE * VALUE), Decision (l = k)).
  { fix IHl 1. intros [|[a b] l] [|[a' b'] k];
      try (right; discriminate); try (left; reflexivity).
    destruct (IH a a'); [|right; congruence].
    destruct (IH b b'); [|right; congruence].
    destruct (IHl l k); [left|right]; congruence. }
  assert (IHm : forall l k : list (string * VALUE), Decision (l = k)).
  { fix IHm 1. intros [|[a b] l] [|[a' b'] k];
      try (right; discriminate); try (left; reflexivity).
    destruct (decide (a = a')); [|right; congruence].
    destruct (IH b b'); [|right; congruence].
    destruct (IHm l k); [left|right]; congruence. }
  intros x y; destruct x, y; try (right; discriminate); try (left; reflexivity).
  - destruct (decide (n = n0)); [left|right]; congruence.
  - destruct (decide (truncated = truncated0)); [left|right]; congruence.
  - destruct (decide (name = name0)); [left|right]; congruence.
  - destruct (decide (s = s0)); [left|right]; congruence.
  - destruct (IHl entries entries0); [left|right]; congruence.
  - destruct (decide (c = c0)); [left|right]; congruence.
  - destruct (decide (c = c0)); [left|right]; congruence.
  - destruct (decide (id = id0)); [left|right]; congruence.
  - destruct (decide (name = name0)); [left|right]; congruence.
  - destruct (IH x y); [|right; congruence].
    destruct (decide (name = name0)); [left|right]; congruence.
  - destruct (IH x y); [|right; congruence].
    destruct (decide (name = name0)); [left|right]; congruence.
  - destruct (decide (klass = klass0)); [|right; congruence].
    destruct (IHm methods methods0); [left|right]; congruence.
  - destruct (decide (a = a0)); [left|right]; congruence.
Defined.

#[global] Instance VALUE_EqDecision : EqDecision VALUE := VALUE_eq_dec.

(** [rb_type]: the tags of [ruby.h] that the values above can carry.  On the
    LP64 platforms an [Integer] is a Fixnum when it fits 63 bits; a [Proc] and
    a [Method] are typed data. *)
Inductive ruby_value_type :=
| T_NIL | T_TRUE | T_FALSE | T_FIXNUM | T_BIGNUM | T_FLOAT | T_SYMBOL
| T_STRING | T_HASH | T_CLASS | T_MODULE | T_DATA | T_OBJECT.

#[global] Instance ruby_value_type_eq_dec : EqDecision ruby_value_type.
Proof. solve_decision. Defined.

Definition FIXNUM_MIN : Z := - 2 ^ 62.
Definition FIXNUM_MAX : Z := 2 ^ 62 - 1.
Definition LONG_MIN : Z := - 2 ^ 63.
Definition LONG_MAX : Z := 2 ^ 63 - 1.
Definition INT_MIN : Z := - 2 ^ 31.
Definition INT_MAX : Z := 2 ^ 31 - 1.

Definition rb_type (v : VALUE) : ruby_value_type :=
  match v with
  | Qnil => T_NIL
  | Qtrue => T_TRUE
  | Qfalse => T_FALSE
  | Integer n =>
      if bool_decide (FIXNUM_MIN <= n <= FIXNUM_MAX) then T_FIXNUM else T_BIGNUM
  | Float _ => T_FLOAT
  | Symbol _ => T_SYMBOL
  | String _ => T_STRING
  | Hash _ => T_HASH
  | Class _ => T_CLASS
  | Module _ => T_MODULE
  | Proc _ | SymbolProc _ | MethodProc _ _ | Method _ _ | Data _ => T_DATA
  | Object _ _ => T_OBJECT
  end.

(** ** Exceptions *)

Inductive exception_class :=
| rb_eArgError | rb_eRangeError | rb_eTypeError | rb_eNoMethodError
| rb_eNameError | rb_eFatal.

(** The format strings of the [rb_raise] calls of [factory_class.c], and the
    messages of the runtime functions it calls. *)
Inductive message :=
| NULL_found
| wrong_number_of_arguments (given lo hi : nat)
| expected_Hash
| expected_Class
| too_big_for_signed_char (n : Z)
| no_implicit_conversion
| out_of_range_of_integer
| undefined_method (name : string)
| null_data_pointer.

Inductive exn := Exn (c : exception_class) (m : message).

#[global] Instance exception_class_eq_dec : EqDecision exception_class.
Proof. solve_decision. Defined.
#[global] Instance message_eq_dec : EqDecision message.
Proof. solve_decision. Defined.
#[global] Instance exn_eq_dec : EqDecision exn.
Proof. solve_decision. Defined.

Definition exn_class (e : exn) : exception_class :=
  match e with Exn c _ => c end.

(** ** The Ruby C API used by the factory

    These functions belong to the interpreter.  They are modelled on values
    alone: a [to_int], [to_proc] or [method] that an application defines is
    taken to return its value without touching the factory. *)

Definition ID2SYM (name : string) : VALUE := Symbol name.
Definition rb_intern (name : string) : string := name.

Fixpoint method_lookup (name : string) (ms : list (string * VALUE)) : option VALUE :=
  match ms with
  | [] => None
  | (n, v) :: ms' => if bool_decide (n = name) then Some v else method_lookup name ms'
  end.

(** [rb_to_integer(val, "to_int")]: the result of [to_int], which has to be an
    Integer; a value without [to_int] has no implicit conversion. *)
Definition rb_to_integer (v : VALUE) : exn + Z :=
  match v with
  | Integer n => inr n
  | Object _ ms =>
      match method_lookup "to_int" ms with
      | Some (Integer n) => inr n
      | _ => inl (Exn rb_eTypeError no_implicit_conversion)
      end
  | _ => inl (Exn rb_eTypeError no_implicit_conversion)
  end.

Definition big2long (n : Z) : exn + Z :=
  if bool_decide (LONG_MIN <= n <= LONG_MAX) then inr n
  else inl (Exn rb_eRangeError out_of_range_of_integer).

(** [rb_num2long] of [numeric.c]: nil is refused first, a Fixnum is taken as
    it is, a Float is truncated when it lies within [long], a Bignum has to
    fit [long], and anything else goes through [to_int] and round again. *)
Definition rb_num2long (v : VALUE) : exn + Z :=
  match v with
  | Qnil => inl (Exn rb_eTypeError no_implicit_conversion)
  | Integer n => big2long n
  | Float (Some t) => big2long t
  | Float None => inl (Exn rb_eRangeError out_of_range_of_integer)
  | _ =>
      match rb_to_integer v with
      | inr n => big2long n
      | inl e => inl e
      end
  end.

(** [rb_num2int] where [int] is narrower than [long]: [rb_num2long] followed
    by [check_int]. *)
Definition rb_num2int (v : VALUE) : exn + Z :=
  match rb_num2long v with
  | inr n =>
      if bool_decide (INT_MIN <= n <= INT_MAX) then inr n
      else inl (Exn rb_eRangeError out_of_range_of_integer)
  | inl e => inl e
  end.

(** [rb_hash_aref] on a hash without a default: the value stored under a key
    equal to [key], [Qnil] when there is none. *)
Fixpoint rb_hash_lookup (entries : list (VALUE * VALUE)) (key : VALUE) : VALUE :=
  match entries with
  | [] => Qnil
  | (k, v) :: rest => if bool_decide (k = key) then v else rb_hash_lookup rest key
  end.

Definition rb_hash_aref (hash key : VALUE) : VALUE :=
  match hash with
  | Hash entries => rb_hash_lookup entries key
  | _ => Qnil
  end.

(** Whether an object answers to a method, for the methods the factory asks
    about: a class object answers to its [class_methods], an application
    object to the methods it lists, and of the built-in objects a [Proc] and
    a [Method] answer to [call] and [to_proc], a [Symbol] to [to_proc]. *)
Definition rb_respond_to (obj : VALUE) (name : string) : bool :=
  match obj with
  | Class c | Module c => bool_decide (name ∈ class_methods c)
  | Object _ ms => bool_decide (is_Some (method_lookup name ms))
  | Proc _ | SymbolProc _ | MethodProc _ _ | Method _ _ =>
      bool_decide (name = "call") || bool_decide (name = "to_proc")
  | Symbol _ => bool_decide (name = "to_proc")
  | _ => false
  end.

(** [rb_obj_method(obj, vid)], that is [obj.method(vid)]: the Method object
    bound to [obj], or a NameError when [obj] has no such method.  The method
    is looked up, not called. *)
Definition rb_obj_method (obj vid : VALUE) : exn + VALUE :=
  match vid with
  | Symbol name | String name =>
      if rb_respond_to obj name then inr (Method obj name)
      else inl (Exn rb_eNameError (undefined_method name))
  | _ => inl (Exn rb_eTypeError no_implicit_conversion)
  end.

(** [rb_funcall(recv, mid, n, ...)] for the two sends the factory makes.
    [to_proc] gives a Proc back as it is, turns a Symbol into the Proc that
    sends that name to its argument, and wraps a Method; an application object
    answers with whatever its own [to_proc] returns.  [method] is
    [rb_obj_method].  A receiver without the method raises NoMethodError;
    class and module objects are taken to define no [to_proc]. *)
Definition rb_funcall (recv : VALUE) (mid : string) (args : list VALUE) : exn + VALUE :=
  if bool_decide (mid = "method") then
    match args with
    | [vid] => rb_obj_method recv vid
    | _ => inl (Exn rb_eArgError (wrong_number_of_arguments (length args) 1 1))
    end
  else
    match recv with
    | Object _ ms =>
        match method_lookup mid ms with
        | Some v => inr v
        | None => inl (Exn rb_eNoMethodError (undefined_method mid))
        end
    | Proc _ | SymbolProc _ | MethodProc _ _ =>
        if bool_decide (mid = "to_proc") then inr recv
        else inl (Exn rb_eNoMethodError (undefined_method mid))
    | Symbol name =>
        if bool_decide (mid = "to_proc") then inr (SymbolProc name)
        else inl (Exn rb_eNoMethodError (undefined_method mid))
    | Method r name =>
        if bool_decide (mid = "to_proc") then inr (MethodProc r name)
        else inl (Exn rb_eNoMethodError (undefined_method mid))
    | _ => inl (Exn rb_eNoMethodError (undefined_method mid))
    end.

(** ** The object store *)

(** An extension registry is a handle on storage that lives in the store: a
    registry passed by address is read and written through its handle. *)
Record msgpack_packer_ext_registry_t := { pk_hash : addr }.
Record msgpack_unpacker_ext_registry_t := { uk_array : addr }.

Record msgpack_factory_t := {
  packer_options : VALUE;
  unpacker_options : VALUE;
  pkrg : msgpack_packer_ext_registry_t;
  ukrg : msgpack_unpacker_ext_registry_t
}.

(** Of a packer and an unpacker the factory touches the registry only. *)
Record msgpack_packer_t := { pk_ext_registry : msgpack_packer_ext_registry_t }.
Record msgpack_unpacker_t := { uk_ext_registry : msgpack_unpacker_ext_registry_t }.

Inductive data :=
| FactoryData (fc : msgpack_factory_t)
| PackerData (pk : msgpack_packer_t)
| UnpackerData (uk : msgpack_unpacker_t).

(** Encode-side entries are keyed by the associated type and hold the code and
    the packer hook; decode-side entries are keyed by the code and hold the
    unpacker hook. *)
Abbreviation pk_entries := (list (VALUE * (Z * VALUE))).
Abbreviation uk_entries := (list (Z * VALUE)).

(** Modelled from the spec: [packer_class.c] and [unpacker_class.c] are not
    among the sources.  Section 6: the construction of a packer or an unpacker
    can fail, and [factory.packer] and [factory.unpacker] propagate the
    error.  Which construction arguments the two classes refuse, and with what
    exception, is decided in those files: it is part of the classes the
    interpreter has loaded, and every statement below holds whatever they
    refuse. *)
Record codec_classes := {
  Packer_refuses : list VALUE -> option exn;
  Unpacker_refuses : list VALUE -> option exn
}.

Record world := {
  classes : codec_classes;
  objects : gmap addr data;
  pk_storage : gmap addr pk_entries;
  uk_storage : gmap addr uk_entries
}.

(** The store of an interpreter that has loaded the classes and made no
    object yet. *)
Definition initial_world (c : codec_classes) : world :=
  {| classes := c; objects := ∅; pk_storage := ∅; uk_storage := ∅ |}.

(** ** Computations that may raise *)

Definition M (A : Type) : Type := world -> world * (exn + A).

Definition ret {A} (a : A) : M A := fun w => (w, inr a).

Definition bind {A B} (c : M A) (k : A -> M B) : M B :=
  fun w =>
    match c w with
    | (w', inr a) => k a w'
    | (w', inl e) => (w', inl e)
    end.

Definition rb_raise {A} (c : exception_class) (m : message) : M A :=
  fun w => (w, inl (Exn c m)).

(** A runtime function that works on values alone. *)
Definition call {A} (r : exn + A) : M A := fun w => (w, r).

Declare Scope rb_scope.
Delimit Scope rb_scope with rb.
Notation "'let*' x ':=' c 'in' k" := (bind c (fun x => k))
  (at level 10, x pattern, c at level 100, k at level 200) : rb_scope.
Notation "c '>>' k" := (bind c (fun _ => k))
  (at level 65, right associativity) : rb_scope.
Local Open Scope rb_scope.

(** The store a computation leaves and what it returns or raises. *)
Definition state {A} (r : world * (exn + A)) : world := fst r.
Definition outcome {A} (r : world * (exn + A)) : exn + A := snd r.

(** ** Association lists with replacement in place *)

Section assoc.
Context {K V : Type} `{EqDecision K}.

Fixpoint assoc_put (k : K) (v : V) (l : list (K * V)) : list (K * V) :=
  match l with
  | [] => [(k, v)]
  | (k', v') :: l' =>
      if bool_decide (k' = k) then (k, v) :: l' else (k', v') :: assoc_put k v l'
  end.

Fixpoint assoc_get (k : K) (l : list (K * V)) : option V :=
  match l with
  | [] => None
  | (k', v') :: l' => if bool_decide (k' = k) then Some v' else assoc_get k l'
  end.
End assoc.

(** ** The extension registries *)

(** Modelled from the spec: [packer_ext_registry.c] is not among the sources.
    Section 4.1, [init]: an empty registry, in storage of its own. *)
Definition msgpack_packer_ext_registry_init : M msgpack_packer_ext_registry_t :=
  fun w =>
    let a := fresh (dom (pk_storage w)) in
    ({| classes := classes w; objects := objects w;
        pk_storage := <[a := []]> (pk_storage w);
        uk_storage := uk_storage w |},
     inr {| pk_hash := a |}).

(** Modelled from the spec: [packer_ext_registry.c] is not among the sources.
    Section 4.1, [put]: inserts or overwrites the entry of the associated
    type; it validates nothing and touches nothing but the mapping.  A write
    through a handle whose storage was destroyed is lost. *)
Definition msgpack_packer_ext_registry_put
    (pkrg : msgpack_packer_ext_registry_t)
    (ext_class : VALUE) (ext_type : Z) (proc : VALUE) : M unit :=
  fun w =>
    ({| classes := classes w; objects := objects w;
        pk_storage := alter (assoc_put ext_class (ext_type, proc)) (pk_hash pkrg) (pk_storage w);
        uk_storage := uk_storage w |},
     inr tt).

(** Modelled from the spec: [packer_ext_registry.c] is not among the sources.
    Section 4.1, [duplicate]: an independent registry, in storage of its own,
    whose entries equal those of the source at the time of the call. *)
Definition msgpack_packer_ext_registry_dup
    (src : msgpack_packer_ext_registry_t) : M msgpack_packer_ext_registry_t :=
  fun w =>
    let a := fresh (dom (pk_storage w)) in
    ({| classes := classes w; objects := objects w;
        pk_storage := <[a := default [] (pk_storage w !! pk_hash src)]> (pk_storage w);
        uk_storage := uk_storage w |},
     inr {| pk_hash := a |}).

(** Modelled from the spec: [packer_ext_registry.c] is not among the sources.
    Section 4.1, [destroy]: releases the storage of the registry. *)
Definition msgpack_packer_ext_registry_destroy
    (pkrg : msgpack_packer_ext_registry_t) : M unit :=
  fun w =>
    ({| classes := classes w; objects := objects w;
        pk_storage := delete (pk_hash pkrg) (pk_storage w);
        uk_storage := uk_storage w |},
     inr tt).

(** Modelled from the spec: [unpacker_ext_registry.c] is not among the
    sources.  Section 4.2, [init]: as on the encode side. *)
Definition msgpack_unpacker_ext_registry_init : M msgpack_unpacker_ext_registry_t :=
  fun w =>
    let a := fresh (dom (uk_storage w)) in
    ({| classes := classes w; objects := objects w;
        pk_storage := pk_storage w;
        uk_storage := <[a := []]> (uk_storage w) |},
     inr {| uk_array := a |}).

(** Modelled from the spec: [unpacker_ext_registry.c] is not among the
    sources.  Section 4.2, [put]: keyed by the code, storing the unpacker
    hook only. *)
Definition msgpack_unpacker_ext_registry_put
    (ukrg : msgpack_unpacker_ext_registry_t) (ext_type : Z) (proc : VALUE) : M unit :=
  fun w =>
    ({| classes := classes w; objects := objects w;
        pk_storage := pk_storage w;
        uk_storage := alter (assoc_put ext_type proc) (uk_array ukrg) (uk_storage w) |},
     inr tt).

(** Modelled from the spec: [unpacker_ext_registry.c] is not among the
    sources.  Section 4.2, [duplicate]: as on the encode side. *)
Definition msgpack_unpacker_ext_registry_dup
    (src : msgpack_unpacker_ext_registry_t) : M msgpack_unpacker_ext_registry_t :=
  fun w =>
    let a := fresh (dom (uk_storage w)) in
    ({| classes := classes w; objects := objects w;
        pk_storage := pk_storage w;
        uk_storage := <[a := default [] (uk_storage w !! uk_array src)]> (uk_storage w) |},
     inr {| uk_array := a |}).

(** Modelled from the spec: [unpacker_ext_registry.c] is not among the
    sources.  Section 4.2, [destroy]: as on the encode side. *)
Definition msgpack_unpacker_ext_registry_destroy
    (ukrg : msgpack_unpacker_ext_registry_t) : M unit :=
  fun w =>
    ({| classes := classes w; objects := objects w;
        pk_storage := pk_storage w;
        uk_storage := delete (uk_array ukrg) (uk_storage w) |},
     inr tt).

(** ** Wrapped structs *)

(** [Data_Wrap_Struct]: a new object holding the struct. *)
Definition Data_Wrap_Struct (d : data) : M VALUE :=
  fun w =>
    let a := fresh (dom (objects w)) in
    ({| classes := classes w; objects := <[a := d]> (objects w);
        pk_storage := pk_storage w;
        uk_storage := uk_storage w |},
     inr (Data a)).

(** [DATA_PTR]: the struct an object wraps, [None] for the NULL pointer. *)
Definition DATA_PTR (obj : VALUE) (w : world) : option data :=
  match obj with
  | Data a => objects w !! a
  | _ => None
  end.

(** A write through the pointer that [Data_Get_Struct] gave. *)
Definition Data_Set_Struct (obj : VALUE) (d : data) : M unit :=
  fun w =>
    match obj with
    | Data a =>
        ({| classes := classes w; objects := alter (fun _ => d) a (objects w);
            pk_storage := pk_storage w;
            uk_storage := uk_storage w |},
         inr tt)
    | _ => (w, inr tt)
    end.

(** The [FACTORY(from, name)] macro: [Data_Get_Struct] and the NULL test. *)
Definition FACTORY (from : VALUE) : M msgpack_factory_t :=
  fun w =>
    match DATA_PTR from w with
    | Some (FactoryData fc) => (w, inr fc)
    | _ => (w, inl (Exn rb_eArgError NULL_found))
    end.

(** [Data_Get_Struct] on a packer or an unpacker.  The C code dereferences the
    pointer without a test; the model stops with [rb_eFatal] where C would
    read through NULL, which the two constructors below never hand out. *)
Definition PACKER (from : VALUE) : M msgpack_packer_t :=
  fun w =>
    match DATA_PTR from w with
    | Some (PackerData pk) => (w, inr pk)
    | _ => (w, inl (Exn rb_eFatal null_data_pointer))
    end.

Definition UNPACKER (from : VALUE) : M msgpack_unpacker_t :=
  fun w =>
    match DATA_PTR from w with
    | Some (UnpackerData uk) => (w, inr uk)
    | _ => (w, inl (Exn rb_eFatal null_data_pointer))
    end.

(** Modelled from the spec: [packer_class.c] is not among the sources.  Codec
    construction with the pass-through arguments: when the packer class
    refuses them its exception is raised and no instance is made; otherwise
    the result is a new packer that carries a default, empty extension
    registry.  What else the arguments configure lies outside the factory. *)
Definition MessagePack_Packer_new (argv : list VALUE) : M VALUE :=
  fun w =>
    match Packer_refuses (classes w) argv with
    | Some e => (w, inl e)
    | None =>
        (let* reg := msgpack_packer_ext_registry_init in
         Data_Wrap_Struct (PackerData {| pk_ext_registry := reg |})) w
    end.

(** Modelled from the spec: [unpacker_class.c] is not among the sources.  As
    for the packer, with what the unpacker class refuses. *)
Definition MessagePack_Unpacker_new (argv : list VALUE) : M VALUE :=
  fun w =>
    match Unpacker_refuses (classes w) argv with
    | Some e => (w, inl e)
    | None =>
        (let* reg := msgpack_unpacker_ext_registry_init in
         Data_Wrap_Struct (UnpackerData {| uk_ext_registry := reg |})) w
    end.

(** ** The methods of [MessagePack::Factory] *)

Definition rb_hash_new : VALUE := Hash [].

Definition Factory_alloc : M VALUE :=
  let* pkrg := msgpack_packer_ext_registry_init in
  let* ukrg := msgpack_unpacker_ext_registry_init in
  Data_Wrap_Struct
    (FactoryData {| packer_options := rb_hash_new;
                    unpacker_options := rb_hash_new;
                    pkrg := pkrg;
                    ukrg := ukrg |}).

Definition Factory_initialize (argv : list VALUE) (self : VALUE) : M VALUE :=
  let* fc := FACTORY self in
  match length argv with
  | 0%nat => ret Qnil
  | argc => rb_raise rb_eArgError (wrong_number_of_arguments argc 0 0)
  end.

Definition Factory_packer (argv : list VALUE) (self : VALUE) : M VALUE :=
  let* fc := FACTORY self in
  let* packer := MessagePack_Packer_new argv in
  let* pk := PACKER packer in
  msgpack_packer_ext_registry_destroy (pk_ext_registry pk) >>
  let* dst := msgpack_packer_ext_registry_dup (pkrg fc) in
  Data_Set_Struct packer (PackerData {| pk_ext_registry := dst |}) >>
  ret packer.

Definition Factory_unpacker (argv : list VALUE) (self : VALUE) : M VALUE :=
  let* fc := FACTORY self in
  let* unpacker := MessagePack_Unpacker_new argv in
  let* uk := UNPACKER unpacker in
  msgpack_unpacker_ext_registry_destroy (uk_ext_registry uk) >>
  let* dst := msgpack_unpacker_ext_registry_dup (ukrg fc) in
  Data_Set_Struct unpacker (UnpackerData {| uk_ext_registry := dst |}) >>
  ret unpacker.

(** [argv[i]]; the reads of [Factory_register_type] come after the test of
    [argc] and stay within the array. *)
Definition arg (argv : list VALUE) (i : nat) : VALUE := nth i argv Qnil.

Definition Factory_register_type (argv : list VALUE) (self : VALUE) : M VALUE :=
  let* fc := FACTORY self in
  let* (packer_arg, unpacker_arg) :=
    match length argv with
    | 2%nat =>
        ret (ID2SYM (rb_intern "to_msgpack_ext"), ID2SYM (rb_intern "from_msgpack_ext"))
    | 3%nat =>
        let options := arg argv 2 in
        if bool_decide (rb_type options <> T_HASH) then
          rb_raise rb_eArgError expected_Hash
        else
          ret (rb_hash_aref options (ID2SYM (rb_intern "packer")),
               rb_hash_aref options (ID2SYM (rb_intern "unpacker")))
    | argc => rb_raise rb_eArgError (wrong_number_of_arguments argc 2 3)
    end in
  let* ext_type := call (rb_num2int (arg argv 0)) in
  (if bool_decide (ext_type < -128 \/ ext_type > 127) then
     rb_raise rb_eRangeError (too_big_for_signed_char ext_type)
   else ret tt) >>
  let ext_class := arg argv 1 in
  (if bool_decide (rb_type ext_class <> T_CLASS) then
     rb_raise rb_eArgError expected_Class
   else ret tt) >>
  let* packer_proc :=
    if bool_decide (packer_arg <> Qnil) then
      call (rb_funcall packer_arg (rb_intern "to_proc") [])
    else ret Qnil in
  let* unpacker_proc :=
    if bool_decide (unpacker_arg <> Qnil) then
      if bool_decide (rb_type unpacker_arg = T_SYMBOL \/ rb_type unpacker_arg = T_STRING) then
        call (rb_obj_method ext_class unpacker_arg)
      else
        call (rb_funcall unpacker_arg (rb_intern "method") [ID2SYM (rb_intern "call")])
    else ret Qnil in
  msgpack_packer_ext_registry_put (pkrg fc) ext_class ext_type packer_proc >>
  msgpack_unpacker_ext_registry_put (ukrg fc) ext_type unpacker_proc >>
  ret Qnil.

(** [Factory.new]: the allocator, then [initialize] on the new object. *)
Definition Factory_new (argv : list VALUE) : M VALUE :=
  let* self := Factory_alloc in
  Factory_initialize argv self >>
  ret self.

(** ** Observations *)

(** The entries of the registries of a factory, and of the registry a packer
    or an unpacker carries, read through their handles. *)
Definition Factory_pkrg_entries (self : VALUE) (w : world) : option pk_entries :=
  match DATA_PTR self w with
  | Some (FactoryData fc) => pk_storage w !! pk_hash (pkrg fc)
  | _ => None
  end.

Definition Factory_ukrg_entries (self : VALUE) (w : world) : option uk_entries :=
  match DATA_PTR self w with
  | Some (FactoryData fc) => uk_storage w !! uk_array (ukrg fc)
  | _ => None
  end.

Definition Packer_entries (packer : VALUE) (w : world) : option pk_entries :=
  match DATA_PTR packer w with
  | Some (PackerData pk) => pk_storage w !! pk_hash (pk_ext_registry pk)
  | _ => None
  end.

Definition Unpacker_entries (unpacker : VALUE) (w : world) : option uk_entries :=
  match DATA_PTR unpacker w with
  | Some (UnpackerData uk) => uk_storage w !! uk_array (uk_ext_registry uk)
  | _ => None
  end.

(** A factory whose two registries have their storage: every factory that
    [Factory_alloc] makes is one, and so it stays. *)
Definition live_factory (self : VALUE) (fc : msgpack_factory_t) (w : world) : Prop :=
  DATA_PTR self w = Some (FactoryData fc) /\
  is_Some (pk_storage w !! pk_hash (pkrg fc)) /\
  is_Some (uk_storage w !! uk_array (ukrg fc)).

(** ** The steps of [Factory_register_type] on values *)

(** The [switch] on [argc]. *)
Definition hook_arguments (argv : list VALUE) : exn + (VALUE * VALUE) :=
  match length argv with
  | 2%nat => inr (Symbol "to_msgpack_ext", Symbol "from_msgpack_ext")
  | 3%nat =>
      if bool_decide (rb_type (arg argv 2) <> T_HASH) then
        inl (Exn rb_eArgError expected_Hash)
      else inr (rb_hash_aref (arg argv 2) (Symbol "packer"),
                rb_hash_aref (arg argv 2) (Symbol "unpacker"))
  | argc => inl (Exn rb_eArgError (wrong_number_of_arguments argc 2 3))
  end.

Definition packer_proc_of (packer_arg : VALUE) : exn + VALUE :=
  if bool_decide (packer_arg <> Qnil) then rb_funcall packer_arg "to_proc" []
  else inr Qnil.

Definition unpacker_proc_of (ext_class unpacker_arg : VALUE) : exn + VALUE :=
  if bool_decide (unpacker_arg <> Qnil) then
    if bool_decide (rb_type unpacker_arg = T_SYMBOL \/ rb_type unpacker_arg = T_STRING)
    then rb_obj_method ext_class unpacker_arg
    else rb_funcall unpacker_arg "method" [Symbol "call"]
  else inr Qnil.

Record registration := {
  reg_type : Z;
  reg_class : VALUE;
  reg_packer_proc : VALUE;
  reg_unpacker_proc : VALUE
}.

(** Everything [Factory_register_type] does before the first [put]. *)
Definition resolve (argv : list VALUE) : exn + registration :=
  match hook_arguments argv with
  | inl e => inl e
  | inr (packer_arg, unpacker_arg) =>
      match rb_num2int (arg argv 0) with
      | inl e => inl e
      | inr ext_type =>
          if bool_decide (ext_type < -128 \/ ext_type > 127) then
            inl (Exn rb_eRangeError (too_big_for_signed_char ext_type))
          else if bool_decide (rb_type (arg argv 1) <> T_CLASS) then
            inl (Exn rb_eArgError expected_Class)
          else
            match packer_proc_of packer_arg with
            | inl e => inl e
            | inr packer_proc =>
                match unpacker_proc_of (arg argv 1) unpacker_arg with
                | inl e => inl e
                | inr unpacker_proc =>
                    inr {| reg_type := ext_type;
                           reg_class := arg argv 1;
                           reg_packer_proc := packer_proc;
                           reg_unpacker_proc := unpacker_proc |}
                end
            end
      end
  end.

(** The two [put]s. *)
Definition store_registration (fc : msgpack_factory_t) (r : registration) (w : world) : world :=
  {| classes := classes w; objects := objects w;
     pk_storage :=
       alter (assoc_put (reg_class r) (reg_type r, reg_packer_proc r))
             (pk_hash (pkrg fc)) (pk_storage w);
     uk_storage :=
       alter (assoc_put (reg_type r) (reg_unpacker_proc r))
             (uk_array (ukrg fc)) (uk_storage w) |}.

(** ** Notions of the specification *)

(** The errors of the validation steps of [register_type]: the arity, the
    options, the range of the code, and the associated type. *)
Definition validation_error (e : exn) : Prop :=
  match e with
  | Exn rb_eArgError (wrong_number_of_arguments _ _ _)
  | Exn rb_eArgError expected_Hash
  | Exn rb_eArgError expected_Class
  | Exn rb_eRangeError _ => True
  | _ => False
  end.

(** The integer a value stands for: an Integer itself, a Float without its
    fractional part, and an object through its [to_int]. *)
Definition integer_value (v : VALUE) : option Z :=
  match v with
  | Integer n => Some n
  | Float t => t
  | Object _ ms =>
      match method_lookup "to_int" ms with
      | Some (Integer n) => Some n
      | _ => None
      end
  | _ => None
  end.

(** The calls that validation refuses: a wrong number of arguments, options
    that are no Hash in the three-argument form, a code whose integer value
    lies outside [-128, 127], an associated type that is no class. *)
Definition invalid_call (argv : list VALUE) : Prop :=
  (length argv <> 2%nat /\ length argv <> 3%nat) \/
  (length argv = 3%nat /\ rb_type (arg argv 2) <> T_HASH) \/
  (exists n, integer_value (arg argv 0) = Some n /\ (n < -128 \/ 127 < n)) \/
  rb_type (arg argv 1) <> T_CLASS.

(** The values that convert to an integer: the numbers, and the objects with a
    [to_int] that returns an Integer. *)
Definition integer_convertible (v : VALUE) : bool :=
  match v with
  | Integer _ | Float _ => true
  | Object _ ms =>
      match method_lookup "to_int" ms with
      | Some (Integer _) => true
      | _ => false
      end
  | _ => false
  end.

(** The two- and three-argument calls that get past the [switch] on [argc]. *)
Definition passes_switch (argv : list VALUE) : Prop :=
  length argv = 2%nat \/ (length argv = 3%nat /\ rb_type (arg argv 2) = T_HASH).

(** The hook a [packer] entry becomes.  No entry gives the unset hook.  A
    Proc is a callable already and passes through; a Symbol becomes the Proc
    that sends its name, a Method the Proc that calls it, and an object with a
    [to_proc] of its own whatever that returns.  Other values have no
    [to_proc]. *)
Definition packer_hook (entry : VALUE) : option VALUE :=
  match entry with
  | Qnil => Some Qnil
  | Proc _ | SymbolProc _ | MethodProc _ _ => Some entry
  | Symbol name => Some (SymbolProc name)
  | Method r name => Some (MethodProc r name)
  | Object _ ms => method_lookup "to_proc" ms
  | _ => None
  end.

(** The hook an [unpacker] entry becomes.  No entry gives the unset hook.  A
    Symbol or a String names a method of the associated class and becomes
    that Method object, when the class has it.  Any other value becomes the
    Method object of its own [call], when it has one. *)
Definition unpacker_hook (c : RClass) (entry : VALUE) : option VALUE :=
  match entry with
  | Qnil => Some Qnil
  | Symbol name | String name =>
      if bool_decide (name ∈ class_methods c) then Some (Method (Class c) name) else None
  | _ => if rb_respond_to entry "call" then Some (Method entry "call") else None
  end.

(** [extends w w']: the classes are the same and everything allocated in [w]
    is in [w'] with the same contents. *)
Definition extends (w w' : world) : Prop :=
  classes w' = classes w /\
  objects w ⊆ objects w' /\
  pk_storage w ⊆ pk_storage w' /\
  uk_storage w ⊆ uk_storage w'.

(** ** Running examples *)

Definition Point_class : RClass :=
  {| class_name := "Point";
     class_methods := ["new"; "from_msgpack_ext"];
     instance_methods := ["to_msgpack_ext"] |}.
Definition Point : VALUE := Class Point_class.

(** A class with neither [to_msgpack_ext] nor [from_msgpack_ext]. *)
Definition Plain : VALUE :=
  Class {| class_name := "Plain"; class_methods := ["new"]; instance_methods := [] |}.

Definition Comparable : VALUE :=
  Module {| class_name := "Comparable"; class_methods := []; instance_methods := ["=="] |}.

(** Codec classes for the examples: a packer and an unpacker are made from
    at most two arguments, an IO and options, and more are refused. *)
Definition at_most_two (argv : list VALUE) : option exn :=
  if bool_decide (length argv <= 2)%nat then None
  else Some (Exn rb_eArgError (wrong_number_of_arguments (length argv) 0 2)).

Definition example_classes : codec_classes :=
  {| Packer_refuses := at_most_two; Unpacker_refuses := at_most_two |}.

Definition empty_world : world := initial_world example_classes.

(** The store after [f = MessagePack::Factory.new], and [f]. *)
Definition factory_world : world := state (Factory_new [] empty_world).
Definition the_factory : VALUE := Data 0.
Definition the_factory_struct : msgpack_factory_t :=
  {| packer_options := Hash []; unpacker_options := Hash [];
     pkrg := {| pk_hash := 0 |}; ukrg := {| uk_array := 0 |} |}.

(** Two procs and a registration of each for [Point] under code 1; the second
    gives no unpacker. *)
Definition first_options : VALUE :=
  Hash [(Symbol "packer", Proc 1); (Symbol "unpacker", Proc 2)].
Definition second_options : VALUE := Hash [(Symbol "packer", Proc 3)].

Definition registered_once : world :=
  state (Factory_register_type [Integer 1; Point; first_options] the_factory factory_world).
Definition registered_twice : world :=
  state (Factory_register_type [Integer 1; Point; second_options] the_factory registered_once).

(** An object that has a [to_proc] and no [call], and options that give it
    once as the packer and once as the unpacker. *)
Definition Lazy : VALUE := Object "Lazy" [("to_proc", Proc 7)].
Definition packer_only : VALUE := Hash [(Symbol "packer", Lazy)].
Definition unpacker_only : VALUE := Hash [(Symbol "unpacker", Lazy)].

(** Snapshot isolation on the example factory: [p1] stays without a mapping
    for [Point], and [p2] has it under code 1. *)
Definition with_p1 : world := state (Factory_packer [] the_factory factory_world).
Definition with_p1_registered : world :=
  state (Factory_register_type [Integer 1; Point] the_factory with_p1).
Definition with_p1_p2 : world := state (Factory_packer [] the_factory with_p1_registered).

(** ** Finalization and marking *)

(** [free(fc)]: the struct of a collected object is given back. *)
Definition free (a : addr) : M unit :=
  fun w =>
    ({| classes := classes w; objects := delete a (objects w);
        pk_storage := pk_storage w;
        uk_storage := uk_storage w |},
     inr tt).

(** [Factory_free], the finalizer the collector runs on a factory it sweeps.
    The pointer is the address of the wrapped struct, [None] for NULL.  A
    pointer to something that is no factory struct is outside what the
    collector passes; the model does nothing there. *)
Definition Factory_free (fc : option addr) : M unit :=
  match fc with
  | None => ret tt
  | Some a =>
      fun w =>
        match objects w !! a with
        | Some (FactoryData s) =>
            (msgpack_packer_ext_registry_destroy (pkrg s) >>
             msgpack_unpacker_ext_registry_destroy (ukrg s) >>
             free a) w
        | _ => (w, inr tt)
        end
  end.

(** [rb_gc_mark]: the value is reported to the collector as reachable. *)
Definition rb_gc_mark (v : VALUE) : list VALUE := [v].

(** Modelled from the spec: [packer_ext_registry.c] is not among the sources.
    Section 4.1, [retain_for_trace]: every type and every hook the registry
    owns is marked. *)
Definition msgpack_packer_ext_registry_mark
    (pkrg : msgpack_packer_ext_registry_t) (w : world) : list VALUE :=
  flat_map (fun e : VALUE * (Z * VALUE) => (rb_gc_mark e.1 ++ rb_gc_mark e.2.2)%list)
           (default [] (pk_storage w !! pk_hash pkrg)).

(** Modelled from the spec: [unpacker_ext_registry.c] is not among the
    sources.  Section 4.2, [retain_for_trace]: every hook the registry owns is
    marked. *)
Definition msgpack_unpacker_ext_registry_mark
    (ukrg : msgpack_unpacker_ext_registry_t) (w : world) : list VALUE :=
  flat_map (fun e : Z * VALUE => rb_gc_mark e.2)
           (default [] (uk_storage w !! uk_array ukrg)).

(** [Factory_mark]: the values a factory keeps alive, in the order the
    function marks them. *)
Definition Factory_mark (fc : msgpack_factory_t) (w : world) : list VALUE :=
  (rb_gc_mark (packer_options fc) ++
   rb_gc_mark (unpacker_options fc) ++
   msgpack_packer_ext_registry_mark (pkrg fc) w ++
   msgpack_unpacker_ext_registry_mark (ukrg fc) w)%list.

(** ** Programs *)

(** One call of a method of the factory class, with any arguments and on any
    receiver, whether it returns or raises. *)
Inductive step : world -> world -> Prop :=
| step_new argv w :
    step w (state (Factory_new argv w))
| step_initialize argv self w :
    step w (state (Factory_initialize argv self w))
| step_register_type argv self w :
    step w (state (Factory_register_type argv self w))
| step_packer argv self w :
    step w (state (Factory_packer argv self w))
| step_unpacker argv self w :
    step w (state (Factory_unpacker argv self w)).

(** The stores a program can build from nothing. *)
Inductive reachable : world -> Prop :=
| reachable_empty c : reachable (initial_world c)
| reachable_step w w' : reachable w -> step w w' -> reachable w'.

(** The storage an object reads its registry from, on each side. *)
Definition pk_handle (d : data) : option addr :=
  match d with
  | FactoryData fc => Some (pk_hash (pkrg fc))
  | PackerData pk => Some (pk_hash (pk_ext_registry pk))
  | UnpackerData _ => None
  end.

Definition uk_handle (d : data) : option addr :=
  match d with
  | FactoryData fc => Some (uk_array (ukrg fc))
  | PackerData _ => None
  | UnpackerData uk => Some (uk_array (uk_ext_registry uk))
  end.

(** Entries that fit the wire format: one entry per key, every code a signed
    byte, and on the encode side every key a class. *)
Definition pk_entries_ok (es : pk_entries) : Prop :=
  NoDup es.*1 /\
  Forall (fun e => rb_type e.1 = T_CLASS /\ -128 <= e.2.1 <= 127) es.

Definition uk_entries_ok (us : uk_entries) : Prop :=
  NoDup us.*1 /\ Forall (fun e => -128 <= e.1 <= 127) us.

(** Every code the encode side can emit has an entry on the decode side. *)
Definition covered (es : pk_entries) (us : uk_entries) : Prop :=
  forall e, e ∈ es -> is_Some (assoc_get e.2.1 us).

Record wf_world (w : world) : Prop := {
  wf_pk_live : forall a d h,
    objects w !! a = Some d -> pk_handle d = Some h -> is_Some (pk_storage w !! h);
  wf_uk_live : forall a d h,
    objects w !! a = Some d -> uk_handle d = Some h -> is_Some (uk_storage w !! h);
  wf_pk_sep : forall a1 a2 d1 d2 h,
    objects w !! a1 = Some d1 -> objects w !! a2 = Some d2 ->
    pk_handle d1 = Some h -> pk_handle d2 = Some h -> a1 = a2;
  wf_uk_sep : forall a1 a2 d1 d2 h,
    objects w !! a1 = Some d1 -> objects w !! a2 = Some d2 ->
    uk_handle d1 = Some h -> uk_handle d2 = Some h -> a1 = a2;
  wf_pk_ok : forall h es, pk_storage w !! h = Some es -> pk_entries_ok es;
  wf_uk_ok : forall h us, uk_storage w !! h = Some us -> uk_entries_ok us;
  wf_covered : forall a fc es us,
    objects w !! a = Some (FactoryData fc) ->
    pk_storage w !! pk_hash (pkrg fc) = Some es ->
    uk_storage w !! uk_array (ukrg fc) = Some us ->
    covered es us
}.

(** The options that spell out what the two-argument form assumes. *)
Definition default_options : VALUE :=
  Hash [(Symbol "packer", Symbol "to_msgpack_ext");
        (Symbol "unpacker", Symbol "from_msgpack_ext")].

(** Two registrations on one receiver, one after the other; the second is
    not made when the first raises. *)
Definition register_both (argv1 argv2 : list VALUE) (self : VALUE) : M VALUE :=
  Factory_register_type argv1 self >> Factory_register_type argv2 self.

(** Options with both hooks, for a second type. *)
Definition third_options : VALUE :=
  Hash [(Symbol "packer", Proc 3); (Symbol "unpacker", String "new")].

(** * Properties *)

(** ** Association lists *)

Section assoc_facts.
Context {K V : Type} `{EqDecision K}.
Implicit Types (k : K) (v : V) (l : list (K * V)).

Lemma assoc_get_put_eq k v l : assoc_get k (assoc_put k v l) = Some v.
Proof.
  induction l as [|[k' v'] l IH]; simpl.
  - by rewrite bool_decide_eq_true_2.
  - case_bool_decide; simpl.
    + by rewrite bool_decide_eq_true_2.
    + by rewrite bool_decide_eq_false_2.
Qed.

Lemma assoc_get_put_ne k k' v l :
  k <> k' -> assoc_get k' (assoc_put k v l) = assoc_get k' l.
Proof.
  intros Hne. induction l as [|[k0 v0] l IH]; simpl.
  - by rewrite bool_decide_eq_false_2.
  - case_bool_decide as Hk; simpl.
    + subst k0. by rewrite !bool_decide_eq_false_2.
    + by rewrite IH.
Qed.

Lemma assoc_put_put k v1 v2 l :
  assoc_put k v2 (assoc_put k v1 l) = assoc_put k v2 l.
Proof.
  induction l as [|[k0 v0] l IH]; simpl.
  - by rewrite bool_decide_eq_true_2.
  - case_bool_decide as Hk; simpl.
    + by rewrite bool_decide_eq_true_2.
    + by rewrite bool_decide_eq_false_2, IH.
Qed.
End assoc_facts.

(** ** The runtime functions *)

Lemma passes_switch_hook_arguments argv :
  passes_switch argv -> exists pa ua, hook_arguments argv = inr (pa, ua).
Proof.
  unfold hook_arguments. intros [->|[-> Hhash]]; [by eauto|].
  rewrite bool_decide_eq_false_2 by (by intros ?). eauto.
Qed.

Lemma rb_num2int_integer_value v n :
  integer_value v = Some n ->
  rb_num2int v =
    if bool_decide (INT_MIN <= n <= INT_MAX) then inr n
    else inl (Exn rb_eRangeError out_of_range_of_integer).
Proof.
  unfold rb_num2int, rb_num2long, rb_to_integer, big2long, integer_value,
    INT_MIN, INT_MAX, LONG_MIN, LONG_MAX.
  destruct v as [ | | | z | [t|] | | | | | | | | | | k ms | ]; try done.
  - intros [= ->]. repeat case_bool_decide; try done; lia.
  - intros [= ->]. repeat case_bool_decide; try done; lia.
  - destruct (method_lookup "to_int" ms) as [[ | | | z | | | | | | | | | | | | ]|]; try done.
    intros [= ->]. repeat case_bool_decide; try done; lia.
Qed.

Lemma rb_num2int_not_convertible v :
  integer_convertible v = false ->
  rb_num2int v = inl (Exn rb_eTypeError no_implicit_conversion).
Proof.
  unfold rb_num2int, rb_num2long, rb_to_integer, integer_convertible.
  destruct v as [ | | | z | [t|] | | | | | | | | | | k ms | ]; try done.
  destruct (method_lookup "to_int" ms) as [[ | | | z | | | | | | | | | | | | ]|]; done.
Qed.

Lemma packer_proc_of_raises pa e :
  packer_proc_of pa = inl e -> exn_class e = rb_eNoMethodError.
Proof.
  unfold packer_proc_of, rb_funcall. case_bool_decide; [|done]. simpl.
  destruct pa; try (by intros [= <-]).
  destruct (method_lookup "to_proc" methods); [done|by intros [= <-]].
Qed.

Lemma rb_obj_method_name_raises obj vid e :
  rb_type vid = T_SYMBOL \/ rb_type vid = T_STRING ->
  rb_obj_method obj vid = inl e -> exn_class e = rb_eNameError.
Proof.
  unfold rb_obj_method.
  destruct vid; simpl; try (by intros [?|?]); try (case_bool_decide; by intros [?|?]).
  - intros _. destruct (rb_respond_to obj name); [done|by intros [= <-]].
  - intros _. destruct (rb_respond_to obj s); [done|by intros [= <-]].
Qed.

Lemma unpacker_proc_of_raises ext_class ua e :
  unpacker_proc_of ext_class ua = inl e -> exn_class e = rb_eNameError.
Proof.
  unfold unpacker_proc_of. case_bool_decide; [|done].
  case_bool_decide as Hname.
  - by apply rb_obj_method_name_raises.
  - unfold rb_funcall. simpl.
    apply (rb_obj_method_name_raises ua (Symbol "call")). by left.
Qed.

(** A call that validation refuses raises before the first [put]. *)
Lemma invalid_call_resolve argv :
  invalid_call argv -> exists e, resolve argv = inl e.
Proof.
  intros Hbad. unfold resolve.
  destruct (hook_arguments argv) as [e|[pa ua]] eqn:Hargs; [by eauto|].
  assert (passes_switch argv) as Hsw.
  { unfold hook_arguments in Hargs. unfold passes_switch.
    destruct (length argv) as [|[|[|[|k]]]]; try done; [by left|].
    case_bool_decide as Hh; [done|]. right. split; [done|].
    by destruct (decide (rb_type (arg argv 2) = T_HASH)). }
  destruct (rb_num2int (arg argv 0)) as [e|m] eqn:Hcode; [by eauto|].
  case_bool_decide as Hrange; [by eauto|].
  case_bool_decide as Hclass; [by eauto|].
  exfalso. destruct Hbad as [[H2 H3]|[[H3 Hh]|[(n & Hn & Hout)|Hty]]].
  - destruct Hsw as [?|[? _]]; congruence.
  - destruct Hsw as [?|[_ ?]]; congruence.
  - rewrite (rb_num2int_integer_value _ _ Hn) in Hcode.
    case_bool_decide; [|done]. injection Hcode as <-. lia.
  - by destruct (decide (rb_type (arg argv 1) = T_CLASS)).
Qed.

(** ** [Factory_register_type] in one equation *)

Lemma Factory_register_type_eq argv self w :
  Factory_register_type argv self w =
  match DATA_PTR self w with
  | Some (FactoryData fc) =>
      match resolve argv with
      | inl e => (w, inl e)
      | inr r => (store_registration fc r w, inr Qnil)
      end
  | _ => (w, inl (Exn rb_eArgError NULL_found))
  end.
Proof.
  unfold Factory_register_type, bind, FACTORY.
  destruct (DATA_PTR self w) as [[fc| |]|]; try reflexivity.
  unfold resolve, hook_arguments, ID2SYM, rb_intern, rb_raise, ret, call.
  destruct (length argv) as [|[|[|[|n]]]]; try reflexivity.
  - destruct (rb_num2int (arg argv 0)) as [e|n]; [reflexivity|].
    case_bool_decide; [reflexivity|].
    case_bool_decide; [reflexivity|].
    unfold packer_proc_of, unpacker_proc_of.
    rewrite !bool_decide_eq_true_2 by done. simpl.
    destruct (if rb_respond_to _ _ then _ else _); reflexivity.
  - case_bool_decide; [reflexivity|].
    destruct (rb_num2int (arg argv 0)) as [e|n]; [reflexivity|].
    case_bool_decide; [reflexivity|].
    case_bool_decide; [reflexivity|].
    unfold packer_proc_of, unpacker_proc_of.
    case_bool_decide.
    + destruct (rb_funcall _ "to_proc" []); [reflexivity|].
      case_bool_decide; [|reflexivity].
      case_bool_decide.
      * destruct (rb_obj_method _ _); reflexivity.
      * destruct (rb_funcall _ "method" _); reflexivity.
    + case_bool_decide; [|reflexivity].
      case_bool_decide.
      * destruct (rb_obj_method _ _); reflexivity.
      * destruct (rb_funcall _ "method" _); reflexivity.
Qed.

(** Whatever [Factory_register_type] raises, it raises before it writes. *)
Lemma Factory_register_type_raise_frame argv self w w' e :
  Factory_register_type argv self w = (w', inl e) -> w' = w.
Proof.
  rewrite Factory_register_type_eq.
  destruct (DATA_PTR self w) as [[fc| |]|]; try congruence.
  destruct (resolve argv); congruence.
Qed.

(** Liveness of a factory in a closed store, by running the lookups. *)
Ltac live_by_computation := repeat split; vm_compute; eauto.

(** ** Failed registrations *)

(** C1: a call of [register_type] that fails with a validation error leaves
    the encode registry and the decode registry of the factory, and indeed
    the whole store, as they were before the call; and every call that
    validation refuses does fail, with the store as it was. *)
Theorem register_type_validation_error_keeps_registries argv self w :
  (forall w' e,
     Factory_register_type argv self w = (w', inl e) ->
     validation_error e ->
     Factory_pkrg_entries self w' = Factory_pkrg_entries self w /\
     Factory_ukrg_entries self w' = Factory_ukrg_entries self w /\
     w' = w) /\
  (invalid_call argv ->
   exists e, Factory_register_type argv self w = (w, inl e)).
Proof.
  split.
  - intros w' e Hrun _. apply Factory_register_type_raise_frame in Hrun. by subst w'.
  - intros Hbad. rewrite Factory_register_type_eq.
    destruct (DATA_PTR self w) as [[fc| |]|]; eauto.
    destruct (invalid_call_resolve _ Hbad) as [e ->]. eauto.
Qed.

Lemma register_type_validation_error_keeps_registries_witness :
  Factory_pkrg_entries the_factory registered_once
    = Factory_pkrg_entries the_factory registered_once /\
  Factory_ukrg_entries the_factory registered_once
    = Factory_ukrg_entries the_factory registered_once /\
  registered_once = registered_once.
Proof.
  apply (proj1 (register_type_validation_error_keeps_registries
                  [Integer 128; Point] the_factory registered_once)
           registered_once (Exn rb_eRangeError (too_big_for_signed_char 128))).
  - vm_compute. reflexivity.
  - simpl. exact I.
Defined.

(** ** Arity *)

Lemma Factory_alloc_eq w :
  Factory_alloc w =
  ({| classes := classes w; objects :=
        <[fresh (dom (objects w)) :=
            FactoryData {| packer_options := Hash []; unpacker_options := Hash [];
                           pkrg := {| pk_hash := fresh (dom (pk_storage w)) |};
                           ukrg := {| uk_array := fresh (dom (uk_storage w)) |} |}]>
          (objects w);
      pk_storage := <[fresh (dom (pk_storage w)) := []]> (pk_storage w);
      uk_storage := <[fresh (dom (uk_storage w)) := []]> (uk_storage w) |},
   inr (Data (fresh (dom (objects w))))).
Proof. reflexivity. Qed.

Lemma Factory_initialize_eq argv self w :
  Factory_initialize argv self w =
  match DATA_PTR self w with
  | Some (FactoryData fc) =>
      match length argv with
      | 0%nat => (w, inr Qnil)
      | argc => (w, inl (Exn rb_eArgError (wrong_number_of_arguments argc 0 0)))
      end
  | _ => (w, inl (Exn rb_eArgError NULL_found))
  end.
Proof.
  unfold Factory_initialize, bind, FACTORY.
  destruct (DATA_PTR self w) as [[fc| |]|]; try reflexivity.
  destruct (length argv); reflexivity.
Qed.

(** C7: [register_type] raises the wrong-number-of-arguments ArgumentError for
    every argument count but 2 and 3, and so do [initialize] and
    [Factory.new] for every count but 0; [Factory.new] without arguments
    returns a new factory whose two registries are empty. *)
Theorem arity_errors argv self fc w :
  DATA_PTR self w = Some (FactoryData fc) ->
  (length argv <> 2%nat -> length argv <> 3%nat ->
   Factory_register_type argv self w =
     (w, inl (Exn rb_eArgError (wrong_number_of_arguments (length argv) 2 3)))) /\
  (length argv <> 0%nat ->
   Factory_initialize argv self w =
     (w, inl (Exn rb_eArgError (wrong_number_of_arguments (length argv) 0 0))) /\
   outcome (Factory_new argv w) =
     inl (Exn rb_eArgError (wrong_number_of_arguments (length argv) 0 0))) /\
  (Factory_initialize [] self w = (w, inr Qnil) /\
   exists w' f fc',
     Factory_new [] w = (w', inr f) /\
     DATA_PTR f w = None /\
     live_factory f fc' w' /\
     packer_options fc' = Hash [] /\
     unpacker_options fc' = Hash [] /\
     Factory_pkrg_entries f w' = Some [] /\
     Factory_ukrg_entries f w' = Some []).
Proof.
  intros Hself. split; [|split; [|split]].
  - intros H2 H3. rewrite Factory_register_type_eq, Hself.
    unfold resolve, hook_arguments.
    destruct (length argv) as [|[|[|[|n]]]]; done.
  - intros H0. split.
    + rewrite Factory_initialize_eq, Hself. destruct (length argv); done.
    + unfold Factory_new, bind, outcome. rewrite Factory_alloc_eq.
      rewrite Factory_initialize_eq. simpl. rewrite lookup_insert_eq.
      destruct (length argv); done.
  - by rewrite Factory_initialize_eq, Hself.
  - unfold Factory_new, bind. rewrite Factory_alloc_eq.
    rewrite Factory_initialize_eq. simpl. rewrite lookup_insert_eq. simpl.
    eexists _, _, _. split; [reflexivity|].
    unfold live_factory, Factory_pkrg_entries, Factory_ukrg_entries. simpl.
    rewrite !lookup_insert_eq.
    split; [apply not_elem_of_dom, is_fresh|].
    repeat split; simpl; rewrite ?lookup_insert_eq; eauto.
Qed.

Lemma arity_errors_witness :
  Factory_register_type [Integer 1; Point; Hash []; Qnil] the_factory factory_world =
    (factory_world, inl (Exn rb_eArgError (wrong_number_of_arguments 4 2 3))) /\
  Factory_initialize [Hash []] the_factory factory_world =
    (factory_world, inl (Exn rb_eArgError (wrong_number_of_arguments 1 0 0))).
Proof.
  pose proof (arity_errors [Integer 1; Point; Hash []; Qnil] the_factory
                the_factory_struct factory_world eq_refl) as [H _].
  pose proof (arity_errors [Hash []] the_factory
                the_factory_struct factory_world eq_refl) as [_ [H' _]].
  split.
  - apply H; simpl; lia.
  - apply H'. simpl; lia.
Defined.

(** ** The order of the checks *)

(** C9: in the three-argument form the options are checked first: when they
    are not a Hash the call raises the ArgumentError about the options,
    whatever the code and the associated type are. *)
Theorem options_check_comes_first argv self fc w :
  DATA_PTR self w = Some (FactoryData fc) ->
  length argv = 3%nat ->
  rb_type (arg argv 2) <> T_HASH ->
  Factory_register_type argv self w = (w, inl (Exn rb_eArgError expected_Hash)).
Proof.
  intros Hself Hlen Hopt. rewrite Factory_register_type_eq, Hself.
  unfold resolve, hook_arguments. rewrite Hlen.
  by rewrite bool_decide_eq_true_2.
Qed.

Lemma options_check_comes_first_witness :
  Factory_register_type [Integer 1000; Comparable; String "packer"] the_factory factory_world =
    (factory_world, inl (Exn rb_eArgError expected_Hash)).
Proof.
  apply (options_check_comes_first _ the_factory the_factory_struct factory_world).
  - reflexivity.
  - reflexivity.
  - simpl. discriminate.
Defined.

(** ** Codec construction *)

Lemma fresh_lookup_None `{Countable K, Infinite K} {A} (m : gmap K A) :
  m !! fresh (dom m) = None.
Proof. apply not_elem_of_dom, is_fresh. Qed.

(** [Factory_packer] adds one object and one storage cell, the cell holding
    the entries of the factory's encode registry, and changes nothing else. *)
Lemma Factory_packer_eq argv self fc w entries :
  DATA_PTR self w = Some (FactoryData fc) ->
  Packer_refuses (classes w) argv = None ->
  pk_storage w !! pk_hash (pkrg fc) = Some entries ->
  Factory_packer argv self w =
  ({| classes := classes w; objects :=
        <[fresh (dom (objects w)) :=
            PackerData {| pk_ext_registry := {| pk_hash := fresh (dom (pk_storage w)) |} |}]>
          (objects w);
      pk_storage := <[fresh (dom (pk_storage w)) := entries]> (pk_storage w);
      uk_storage := uk_storage w |},
   inr (Data (fresh (dom (objects w))))).
Proof.
  intros Hself Hargs Hentries.
  unfold Factory_packer, bind, FACTORY. rewrite Hself.
  unfold MessagePack_Packer_new. rewrite Hargs.
  unfold bind, msgpack_packer_ext_registry_init, Data_Wrap_Struct, PACKER. simpl.
  rewrite lookup_insert_eq. simpl.
  rewrite delete_insert_id by apply fresh_lookup_None.
  rewrite Hentries, alter_insert_eq. reflexivity.
Qed.

Lemma Factory_unpacker_eq argv self fc w entries :
  DATA_PTR self w = Some (FactoryData fc) ->
  Unpacker_refuses (classes w) argv = None ->
  uk_storage w !! uk_array (ukrg fc) = Some entries ->
  Factory_unpacker argv self w =
  ({| classes := classes w; objects :=
        <[fresh (dom (objects w)) :=
            UnpackerData {| uk_ext_registry := {| uk_array := fresh (dom (uk_storage w)) |} |}]>
          (objects w);
      pk_storage := pk_storage w;
      uk_storage := <[fresh (dom (uk_storage w)) := entries]> (uk_storage w) |},
   inr (Data (fresh (dom (objects w))))).
Proof.
  intros Hself Hargs Hentries.
  unfold Factory_unpacker, bind, FACTORY. rewrite Hself.
  unfold MessagePack_Unpacker_new. rewrite Hargs.
  unfold bind, msgpack_unpacker_ext_registry_init, Data_Wrap_Struct, UNPACKER. simpl.
  rewrite lookup_insert_eq. simpl.
  rewrite delete_insert_id by apply fresh_lookup_None.
  rewrite Hentries, alter_insert_eq. reflexivity.
Qed.

(** When the codec class refuses the arguments, its exception comes out of
    the factory's method and the store is as it was. *)
Lemma Factory_packer_refused argv self fc w e :
  DATA_PTR self w = Some (FactoryData fc) ->
  Packer_refuses (classes w) argv = Some e ->
  Factory_packer argv self w = (w, inl e).
Proof.
  intros Hself Hargs. unfold Factory_packer, bind, FACTORY. rewrite Hself.
  unfold MessagePack_Packer_new. by rewrite Hargs.
Qed.

Lemma Factory_unpacker_refused argv self fc w e :
  DATA_PTR self w = Some (FactoryData fc) ->
  Unpacker_refuses (classes w) argv = Some e ->
  Factory_unpacker argv self w = (w, inl e).
Proof.
  intros Hself Hargs. unfold Factory_unpacker, bind, FACTORY. rewrite Hself.
  unfold MessagePack_Unpacker_new. by rewrite Hargs.
Qed.

(** ** Stores that grow *)

Lemma extends_DATA_PTR w w' obj d :
  extends w w' -> DATA_PTR obj w = Some d -> DATA_PTR obj w' = Some d.
Proof.
  intros (_ & Ho & _ & _). destruct obj; simpl; try done.
  intros. by eapply lookup_weaken.
Qed.

Lemma extends_live_factory w w' self fc :
  extends w w' -> live_factory self fc w -> live_factory self fc w'.
Proof.
  intros Hext (Hself & [e He] & [e' He']). split; [|split].
  - by eapply extends_DATA_PTR.
  - exists e. eapply lookup_weaken; [done|apply Hext].
  - exists e'. eapply lookup_weaken; [done|apply Hext].
Qed.

Lemma extends_Factory_pkrg_entries w w' self fc :
  extends w w' -> live_factory self fc w ->
  Factory_pkrg_entries self w' = Factory_pkrg_entries self w.
Proof.
  intros Hext (Hself & [e He] & _). unfold Factory_pkrg_entries.
  rewrite (extends_DATA_PTR _ _ _ _ Hext Hself), Hself, He.
  eapply lookup_weaken; [done|apply Hext].
Qed.

Lemma extends_Factory_ukrg_entries w w' self fc :
  extends w w' -> live_factory self fc w ->
  Factory_ukrg_entries self w' = Factory_ukrg_entries self w.
Proof.
  intros Hext (Hself & _ & [e He]). unfold Factory_ukrg_entries.
  rewrite (extends_DATA_PTR _ _ _ _ Hext Hself), Hself, He.
  eapply lookup_weaken; [done|apply Hext].
Qed.

Lemma extends_Packer_entries w w' p e :
  extends w w' -> Packer_entries p w = Some e -> Packer_entries p w' = Some e.
Proof.
  intros Hext. unfold Packer_entries.
  destruct (DATA_PTR p w) as [[| pk |]|] eqn:Hp; try done.
  rewrite (extends_DATA_PTR _ _ _ _ Hext Hp). intros.
  eapply lookup_weaken; [done|apply Hext].
Qed.

Lemma extends_Unpacker_entries w w' u e :
  extends w w' -> Unpacker_entries u w = Some e -> Unpacker_entries u w' = Some e.
Proof.
  intros Hext. unfold Unpacker_entries.
  destruct (DATA_PTR u w) as [[| | uk]|] eqn:Hu; try done.
  rewrite (extends_DATA_PTR _ _ _ _ Hext Hu). intros.
  eapply lookup_weaken; [done|apply Hext].
Qed.

(** What [f.packer] gives on a live factory: a new packer whose registry has
    storage that did not exist before, hence not the factory's, filled with
    the entries of the factory's encode registry; the store only grows. *)
Lemma Factory_packer_spec argv self fc w :
  live_factory self fc w ->
  Packer_refuses (classes w) argv = None ->
  exists w' p pk e,
    Factory_packer argv self w = (w', inr p) /\
    extends w w' /\
    DATA_PTR p w = None /\
    DATA_PTR p w' = Some (PackerData pk) /\
    pk_storage w !! pk_hash (pk_ext_registry pk) = None /\
    Factory_pkrg_entries self w = Some e /\
    Packer_entries p w' = Some e.
Proof.
  intros (Hself & [e He] & Hu) Hargs.
  eexists _, _, {| pk_ext_registry := {| pk_hash := fresh (dom (pk_storage w)) |} |}, e.
  split; [by eapply Factory_packer_eq|].
  unfold Packer_entries, Factory_pkrg_entries, extends. simpl.
  rewrite Hself, !lookup_insert_eq. simpl. rewrite ?lookup_insert_eq.
  repeat split; try done.
  - apply insert_subseteq, fresh_lookup_None.
  - apply insert_subseteq, fresh_lookup_None.
  - apply fresh_lookup_None.
  - apply fresh_lookup_None.
Qed.

Lemma Factory_unpacker_spec argv self fc w :
  live_factory self fc w ->
  Unpacker_refuses (classes w) argv = None ->
  exists w' u uk e,
    Factory_unpacker argv self w = (w', inr u) /\
    extends w w' /\
    DATA_PTR u w = None /\
    DATA_PTR u w' = Some (UnpackerData uk) /\
    uk_storage w !! uk_array (uk_ext_registry uk) = None /\
    Factory_ukrg_entries self w = Some e /\
    Unpacker_entries u w' = Some e.
Proof.
  intros (Hself & Hp & [e He]) Hargs.
  eexists _, _, {| uk_ext_registry := {| uk_array := fresh (dom (uk_storage w)) |} |}, e.
  split; [by eapply Factory_unpacker_eq|].
  unfold Unpacker_entries, Factory_ukrg_entries, extends. simpl.
  rewrite Hself, !lookup_insert_eq. simpl. rewrite ?lookup_insert_eq.
  repeat split; try done.
  - apply insert_subseteq, fresh_lookup_None.
  - apply insert_subseteq, fresh_lookup_None.
  - apply fresh_lookup_None.
  - apply fresh_lookup_None.
Qed.

(** ** What a registration touches *)

Lemma resolve_inr argv r :
  resolve argv = inr r ->
  rb_num2int (arg argv 0) = inr (reg_type r) /\
  -128 <= reg_type r <= 127 /\
  reg_class r = arg argv 1 /\
  rb_type (arg argv 1) = T_CLASS /\
  exists packer_arg unpacker_arg,
    hook_arguments argv = inr (packer_arg, unpacker_arg) /\
    packer_proc_of packer_arg = inr (reg_packer_proc r) /\
    unpacker_proc_of (arg argv 1) unpacker_arg = inr (reg_unpacker_proc r).
Proof.
  unfold resolve.
  destruct (hook_arguments argv) as [e|[pa ua]]; [done|].
  destruct (rb_num2int (arg argv 0)) as [e|n]; [done|].
  case_bool_decide as Hrange; [done|].
  case_bool_decide as Hclass; [done|].
  destruct (packer_proc_of pa) as [e|pp] eqn:Hpp; [done|].
  destruct (unpacker_proc_of (arg argv 1) ua) as [e|up] eqn:Hup; [done|].
  intros [= <-]. simpl. repeat split; try lia.
  - by destruct (decide (rb_type (arg argv 1) = T_CLASS)).
  - eauto.
Qed.

Lemma Factory_register_type_inr argv self fc w w' v :
  DATA_PTR self w = Some (FactoryData fc) ->
  Factory_register_type argv self w = (w', inr v) ->
  exists r, resolve argv = inr r /\ w' = store_registration fc r w /\ v = Qnil.
Proof.
  intros Hself. rewrite Factory_register_type_eq, Hself.
  destruct (resolve argv) as [e|r]; [done|]. intros [= <- <-]. eauto.
Qed.

(** A registration leaves every object where it is and writes to the storage
    of the factory's two registries only. *)
Lemma Factory_register_type_frame argv self fc w w' res :
  DATA_PTR self w = Some (FactoryData fc) ->
  Factory_register_type argv self w = (w', res) ->
  objects w' = objects w /\
  (forall a, a <> pk_hash (pkrg fc) -> pk_storage w' !! a = pk_storage w !! a) /\
  (forall a, a <> uk_array (ukrg fc) -> uk_storage w' !! a = uk_storage w !! a) /\
  (is_Some (pk_storage w !! pk_hash (pkrg fc)) ->
   is_Some (pk_storage w' !! pk_hash (pkrg fc))) /\
  (is_Some (uk_storage w !! uk_array (ukrg fc)) ->
   is_Some (uk_storage w' !! uk_array (ukrg fc))).
Proof.
  intros Hself. rewrite Factory_register_type_eq, Hself.
  destruct (resolve argv) as [e|r]; intros [= <- <-]; [done|].
  simpl. repeat split.
  - intros a Ha. by rewrite lookup_alter_ne.
  - intros a Ha. by rewrite lookup_alter_ne.
  - rewrite lookup_alter_eq. intros [x ->]. by eexists.
  - rewrite lookup_alter_eq. intros [x ->]. by eexists.
Qed.

Lemma Factory_register_type_live argv self fc w w' res :
  live_factory self fc w ->
  Factory_register_type argv self w = (w', res) ->
  live_factory self fc w'.
Proof.
  intros (Hself & Hp & Hu) Hrun.
  destruct (Factory_register_type_frame _ _ _ _ _ _ Hself Hrun) as (Ho & _ & _ & Hp' & Hu').
  split; [|by auto].
  destruct self; simpl in *; try done. by rewrite Ho.
Qed.

Lemma Factory_register_type_keeps_packer argv self fc w w' res p pk :
  DATA_PTR self w = Some (FactoryData fc) ->
  DATA_PTR p w = Some (PackerData pk) ->
  pk_hash (pk_ext_registry pk) <> pk_hash (pkrg fc) ->
  Factory_register_type argv self w = (w', res) ->
  Packer_entries p w' = Packer_entries p w.
Proof.
  intros Hself Hp Hne Hrun.
  destruct (Factory_register_type_frame _ _ _ _ _ _ Hself Hrun) as (Ho & Hpk & _).
  unfold Packer_entries.
  assert (DATA_PTR p w' = DATA_PTR p w) as -> by (destruct p; simpl; congruence).
  rewrite Hp. by apply Hpk.
Qed.

Lemma Factory_register_type_keeps_unpacker argv self fc w w' res u uk :
  DATA_PTR self w = Some (FactoryData fc) ->
  DATA_PTR u w = Some (UnpackerData uk) ->
  uk_array (uk_ext_registry uk) <> uk_array (ukrg fc) ->
  Factory_register_type argv self w = (w', res) ->
  Unpacker_entries u w' = Unpacker_entries u w.
Proof.
  intros Hself Hp Hne Hrun.
  destruct (Factory_register_type_frame _ _ _ _ _ _ Hself Hrun) as (Ho & _ & Huk & _).
  unfold Unpacker_entries.
  assert (DATA_PTR u w' = DATA_PTR u w) as -> by (destruct u; simpl; congruence).
  rewrite Hp. by apply Huk.
Qed.

(** After a registration that went through, both registries of the factory
    hold the entry it made. *)
Lemma store_registration_entries self fc r w :
  live_factory self fc w ->
  Factory_pkrg_entries self (store_registration fc r w) ≫= assoc_get (reg_class r)
    = Some (reg_type r, reg_packer_proc r) /\
  Factory_ukrg_entries self (store_registration fc r w) ≫= assoc_get (reg_type r)
    = Some (reg_unpacker_proc r).
Proof.
  intros (Hself & [e He] & [e' He']).
  unfold Factory_pkrg_entries, Factory_ukrg_entries.
  assert (DATA_PTR self (store_registration fc r w) = DATA_PTR self w) as ->
    by (by destruct self).
  rewrite Hself. simpl. rewrite !lookup_alter_eq, He, He'. simpl.
  by rewrite !assoc_get_put_eq.
Qed.

(** ** Snapshot isolation *)

Lemma Factory_register_type_classes argv self w w' res :
  Factory_register_type argv self w = (w', res) -> classes w' = classes w.
Proof.
  rewrite Factory_register_type_eq.
  destruct (DATA_PTR self w) as [[fc| |]|]; try (by intros [= <- _]).
  destruct (resolve argv); by intros [= <- _].
Qed.

(** C2: on a live factory, with construction arguments the codec classes
    accept, [p1 = f.packer] and [u1 = f.unpacker] receive the entries the
    factory has at that time, in storage that is not the factory's.  A later
    [f.register_type], whether it succeeds or raises, leaves the entries of
    [p1] and [u1] as they were.  When its arguments pass the checks and
    resolve to a mapping, the call returns, and [p2 = f.packer] and
    [u2 = f.unpacker] made afterwards hold the factory's entries of that
    time, the new mapping among them, while [p1] and [u1] still read as
    before. *)
Theorem snapshot_isolation pargs uargs argv self fc w :
  live_factory self fc w ->
  Packer_refuses (classes w) pargs = None ->
  Unpacker_refuses (classes w) uargs = None ->
  exists w1 p1 w2 u1 pk1 uk1,
    Factory_packer pargs self w = (w1, inr p1) /\
    Factory_unpacker uargs self w1 = (w2, inr u1) /\
    is_Some (Packer_entries p1 w2) /\
    Packer_entries p1 w2 = Factory_pkrg_entries self w /\
    is_Some (Unpacker_entries u1 w2) /\
    Unpacker_entries u1 w2 = Factory_ukrg_entries self w /\
    DATA_PTR p1 w2 = Some (PackerData pk1) /\
    pk_hash (pk_ext_registry pk1) <> pk_hash (pkrg fc) /\
    DATA_PTR u1 w2 = Some (UnpackerData uk1) /\
    uk_array (uk_ext_registry uk1) <> uk_array (ukrg fc) /\
    (forall w3 res,
       Factory_register_type argv self w2 = (w3, res) ->
       Packer_entries p1 w3 = Packer_entries p1 w2 /\
       Unpacker_entries u1 w3 = Unpacker_entries u1 w2) /\
    (forall r,
       resolve argv = inr r ->
       exists w3 w4 p2 w5 u2,
         Factory_register_type argv self w2 = (w3, inr Qnil) /\
         Factory_packer pargs self w3 = (w4, inr p2) /\
         Factory_unpacker uargs self w4 = (w5, inr u2) /\
         reg_class r = arg argv 1 /\
         rb_num2int (arg argv 0) = inr (reg_type r) /\
         Packer_entries p2 w5 = Factory_pkrg_entries self w3 /\
         Unpacker_entries u2 w5 = Factory_ukrg_entries self w3 /\
         Packer_entries p2 w5 ≫= assoc_get (arg argv 1)
           = Some (reg_type r, reg_packer_proc r) /\
         Unpacker_entries u2 w5 ≫= assoc_get (reg_type r)
           = Some (reg_unpacker_proc r) /\
         Packer_entries p1 w5 = Packer_entries p1 w2 /\
         Unpacker_entries u1 w5 = Unpacker_entries u1 w2).
Proof.
  intros Hlive Hpargs Huargs.
  destruct (Factory_packer_spec pargs _ _ _ Hlive Hpargs)
    as (w1 & p1 & pk1 & e & Hrun1 & Hext1 & _ & Hp1 & Hfresh1 & Hfe & Hpe).
  pose proof (extends_live_factory _ _ _ _ Hext1 Hlive) as Hlive1.
  assert (Unpacker_refuses (classes w1) uargs = None) as Huargs1
    by (by rewrite (proj1 Hext1)).
  destruct (Factory_unpacker_spec uargs _ _ _ Hlive1 Huargs1)
    as (w2 & u1 & uk1 & e' & Hrun2 & Hext2 & _ & Hu1 & Hfresh2 & Hfe' & Hue).
  pose proof (extends_live_factory _ _ _ _ Hext2 Hlive1) as Hlive2.
  pose proof (extends_Packer_entries _ _ _ _ Hext2 Hpe) as Hpe2.
  pose proof (extends_DATA_PTR _ _ _ _ Hext2 Hp1) as Hp12.
  assert (classes w2 = classes w) as Hcl2
    by (by rewrite (proj1 Hext2), (proj1 Hext1)).
  assert (pk_hash (pk_ext_registry pk1) <> pk_hash (pkrg fc)) as Hnep.
  { intros Heq. destruct Hlive as (_ & [x Hx] & _). congruence. }
  assert (uk_array (uk_ext_registry uk1) <> uk_array (ukrg fc)) as Hneu.
  { intros Heq. destruct Hlive1 as (_ & _ & [x Hx]). congruence. }
  exists w1, p1, w2, u1, pk1, uk1.
  rewrite Hpe2, Hue, Hfe.
  rewrite <- (extends_Factory_ukrg_entries _ _ _ _ Hext1 Hlive), Hfe'.
  do 10 (split; [by eauto|]).
  pose proof Hlive2 as (Hself2 & Hlp2 & Hlu2).
  assert (forall w3 res,
            Factory_register_type argv self w2 = (w3, res) ->
            Packer_entries p1 w3 = Some e /\ Unpacker_entries u1 w3 = Some e') as Hkeep.
  { intros w3 res Hrun3.
    rewrite (Factory_register_type_keeps_packer _ _ _ _ _ _ _ _ Hself2 Hp12 Hnep Hrun3).
    rewrite (Factory_register_type_keeps_unpacker _ _ _ _ _ _ _ _ Hself2 Hu1 Hneu Hrun3).
    done. }
  split; [exact Hkeep|].
  intros r Hres.
  assert (Factory_register_type argv self w2 = (store_registration fc r w2, inr Qnil))
    as Hrun3 by (by rewrite Factory_register_type_eq, Hself2, Hres).
  destruct (Hkeep _ _ Hrun3) as [Hk1 Hk2].
  pose proof (Factory_register_type_live _ _ _ _ _ _ Hlive2 Hrun3) as Hlive3.
  pose proof (Factory_register_type_classes _ _ _ _ _ Hrun3) as Hcl3.
  destruct (resolve_inr _ _ Hres) as (Hn & _ & Hc & _).
  destruct (store_registration_entries self fc r w2 Hlive2) as (Hse & Hsu).
  assert (Packer_refuses (classes (store_registration fc r w2)) pargs = None) as Hpargs3
    by (by rewrite Hcl3, Hcl2).
  destruct (Factory_packer_spec pargs _ _ _ Hlive3 Hpargs3)
    as (w4 & p2 & pk2 & e3 & Hrun4 & Hext4 & _ & Hp2 & _ & Hfe3 & Hpe3).
  pose proof (extends_live_factory _ _ _ _ Hext4 Hlive3) as Hlive4.
  assert (Unpacker_refuses (classes w4) uargs = None) as Huargs4
    by (by rewrite (proj1 Hext4), Hcl3, Hcl2).
  destruct (Factory_unpacker_spec uargs _ _ _ Hlive4 Huargs4)
    as (w5 & u2 & uk2 & e4 & Hrun5 & Hext5 & _ & Hu2 & _ & Hfe4 & Hue4).
  exists (store_registration fc r w2), w4, p2, w5, u2.
  rewrite (extends_Packer_entries _ _ _ _ Hext5 Hpe3), Hue4.
  rewrite (extends_Packer_entries _ _ _ _ Hext5 (extends_Packer_entries _ _ _ _ Hext4 Hk1)).
  rewrite (extends_Unpacker_entries _ _ _ _ Hext5 (extends_Unpacker_entries _ _ _ _ Hext4 Hk2)).
  rewrite <- Hfe3, <- Hfe4, <- Hc.
  rewrite (extends_Factory_ukrg_entries _ _ _ _ Hext4 Hlive3).
  repeat split; done.
Qed.

(** The claim run on the example factory with [register_type(1, Point)]:
    [p1] and [u1], made before, stay empty, and [p2] and [u2], made after,
    carry the mapping. *)
Lemma snapshot_isolation_witness :
  exists w1 p1 w2 u1 w3 w4 p2 w5 u2,
    Factory_packer [] the_factory factory_world = (w1, inr p1) /\
    Factory_unpacker [] the_factory w1 = (w2, inr u1) /\
    Factory_register_type [Integer 1; Point] the_factory w2 = (w3, inr Qnil) /\
    Factory_packer [] the_factory w3 = (w4, inr p2) /\
    Factory_unpacker [] the_factory w4 = (w5, inr u2) /\
    Packer_entries p1 w2 = Some [] /\
    Packer_entries p1 w5 = Some [] /\
    Unpacker_entries u1 w5 = Some [] /\
    Packer_entries p2 w5 = Some [(Point, (1, SymbolProc "to_msgpack_ext"))] /\
    Unpacker_entries u2 w5 = Some [(1, Method Point "from_msgpack_ext")].
Proof.
  destruct (snapshot_isolation [] [] [Integer 1; Point] the_factory the_factory_struct
              factory_world)
    as (w1 & p1 & w2 & u1 & pk1 & uk1 & Hrun1 & Hrun2 & _ & Hp1 & _ & _ & _ & _ & _ & _
        & _ & Hnew).
  - live_by_computation.
  - reflexivity.
  - reflexivity.
  - destruct (Hnew {| reg_type := 1; reg_class := Point;
                      reg_packer_proc := SymbolProc "to_msgpack_ext";
                      reg_unpacker_proc := Method Point "from_msgpack_ext" |})
      as (w3 & w4 & p2 & w5 & u2 & Hrun3 & Hrun4 & Hrun5 & _ & _ & _ & _ & _ & _
          & Hk1 & Hk2); [reflexivity|].
    exists w1, p1, w2, u1, w3, w4, p2, w5, u2.
    do 5 (split; [assumption|]).
    rewrite Hk1, Hk2.
    vm_compute in Hrun1. injection Hrun1 as <- <-.
    vm_compute in Hrun2. injection Hrun2 as <- <-.
    vm_compute in Hrun3. injection Hrun3 as <-.
    vm_compute in Hrun4. injection Hrun4 as <- <-.
    vm_compute in Hrun5. injection Hrun5 as <- <-.
    vm_compute. repeat split.
Defined.

Example snapshot_isolation_run :
  outcome (Factory_packer [] the_factory factory_world) = inr (Data 1) /\
  outcome (Factory_register_type [Integer 1; Point] the_factory with_p1) = inr Qnil /\
  outcome (Factory_packer [] the_factory with_p1_registered) = inr (Data 2) /\
  Packer_entries (Data 1) with_p1 = Some [] /\
  Packer_entries (Data 1) with_p1_p2 = Some [] /\
  Packer_entries (Data 2) with_p1_p2 = Some [(Point, (1, SymbolProc "to_msgpack_ext"))].
Proof. vm_compute. repeat split. Qed.

(** ** Registering twice *)

Lemma alter_assoc_put_twice {K V} `{EqDecision K} (m : gmap addr (list (K * V))) a k v1 v2 :
  alter (assoc_put k v2) a (alter (assoc_put k v1) a m) = alter (assoc_put k v2) a m.
Proof.
  rewrite alter_alter_eq. apply alter_ext. intros l _. simpl.
  apply assoc_put_put.
Qed.

Lemma store_registration_twice fc r1 r2 w :
  reg_class r1 = reg_class r2 ->
  reg_type r1 = reg_type r2 ->
  store_registration fc r2 (store_registration fc r1 w) = store_registration fc r2 w.
Proof.
  intros Hc Ht. unfold store_registration. simpl. rewrite Hc, Ht.
  by rewrite !alter_assoc_put_twice.
Qed.

(** C8: when the same code and the same type are registered twice, the
    registries end up as if only the second registration had been made: the
    type maps to the code and the packer hook of the second call, the code to
    its unpacker hook, nothing of the first call is left, and a packer and an
    unpacker made afterwards, from arguments their classes accept, carry the
    second pair. *)
Theorem last_registration_wins pargs uargs argv1 argv2 self fc w w1 w2 :
  live_factory self fc w ->
  rb_num2int (arg argv1 0) = rb_num2int (arg argv2 0) ->
  arg argv1 1 = arg argv2 1 ->
  Factory_register_type argv1 self w = (w1, inr Qnil) ->
  Factory_register_type argv2 self w1 = (w2, inr Qnil) ->
  exists r2,
    resolve argv2 = inr r2 /\
    Factory_pkrg_entries self w2 ≫= assoc_get (reg_class r2)
      = Some (reg_type r2, reg_packer_proc r2) /\
    Factory_ukrg_entries self w2 ≫= assoc_get (reg_type r2)
      = Some (reg_unpacker_proc r2) /\
    Factory_register_type argv2 self w = (w2, inr Qnil) /\
    (Packer_refuses (classes w2) pargs = None ->
     Unpacker_refuses (classes w2) uargs = None ->
     exists w3 p w4 u,
       Factory_packer pargs self w2 = (w3, inr p) /\
       Factory_unpacker uargs self w3 = (w4, inr u) /\
       Packer_entries p w4 ≫= assoc_get (reg_class r2)
         = Some (reg_type r2, reg_packer_proc r2) /\
       Unpacker_entries u w4 ≫= assoc_get (reg_type r2)
         = Some (reg_unpacker_proc r2)).
Proof.
  intros Hlive Hcode Hclass Hrun1 Hrun2.
  pose proof (Factory_register_type_live _ _ _ _ _ _ Hlive Hrun1) as Hlive1.
  pose proof (Factory_register_type_live _ _ _ _ _ _ Hlive1 Hrun2) as Hlive2.
  destruct Hlive as (Hself & Hlp & Hlu).
  destruct (Factory_register_type_inr _ _ _ _ _ _ Hself Hrun1) as (r1 & Hres1 & -> & _).
  destruct (Factory_register_type_inr _ _ _ _ _ _ (proj1 Hlive1) Hrun2)
    as (r2 & Hres2 & -> & _).
  destruct (resolve_inr _ _ Hres1) as (Hn1 & _ & Hc1 & _).
  destruct (resolve_inr _ _ Hres2) as (Hn2 & _ & Hc2 & _).
  assert (reg_type r1 = reg_type r2) as Ht by congruence.
  assert (reg_class r1 = reg_class r2) as Hc by congruence.
  rewrite store_registration_twice in * by done.
  destruct (store_registration_entries self fc r2 w (conj Hself (conj Hlp Hlu)))
    as (Hse & Hsu).
  exists r2. do 3 (split; [done|]).
  split; [by rewrite Factory_register_type_eq, Hself, Hres2|].
  intros Hpargs Huargs.
  destruct (Factory_packer_spec pargs _ _ _ Hlive2 Hpargs)
    as (w3 & p & pk & e & Hrun3 & Hext3 & _ & _ & _ & Hfe & Hpe).
  pose proof (extends_live_factory _ _ _ _ Hext3 Hlive2) as Hlive3.
  assert (Unpacker_refuses (classes w3) uargs = None) as Huargs3
    by (by rewrite (proj1 Hext3)).
  destruct (Factory_unpacker_spec uargs _ _ _ Hlive3 Huargs3)
    as (w4 & u & uk & e' & Hrun4 & Hext4 & _ & _ & _ & Hfe' & Hue).
  exists w3, p, w4, u.
  rewrite (extends_Packer_entries _ _ _ _ Hext4 Hpe), Hue, <- Hfe, <- Hfe'.
  rewrite (extends_Factory_ukrg_entries _ _ _ _ Hext3 Hlive2).
  done.
Qed.

Lemma last_registration_wins_witness :
  Factory_pkrg_entries the_factory registered_twice = Some [(Point, (1, Proc 3))] /\
  Factory_ukrg_entries the_factory registered_twice = Some [(1, Qnil)] /\
  Factory_register_type [Integer 1; Point; second_options] the_factory factory_world
    = (registered_twice, inr Qnil).
Proof.
  destruct (last_registration_wins [] []
              [Integer 1; Point; first_options] [Integer 1; Point; second_options]
              the_factory the_factory_struct factory_world registered_once registered_twice)
    as (r2 & _ & _ & _ & Honly & _).
  - live_by_computation.
  - reflexivity.
  - reflexivity.
  - vm_compute. reflexivity.
  - vm_compute. reflexivity.
  - split; [|split]; [vm_compute; reflexivity .. | exact Honly].
Defined.

(** ** The code argument *)

(** A three-argument call with code 1000 and options that are no Hash: the
    call raises the ArgumentError about the options, not a RangeError. *)
Lemma range_error_preceded_by_options_check :
  length [Integer 1000; Point; Integer 5] = 3%nat /\
  integer_value (arg [Integer 1000; Point; Integer 5] 0) = Some 1000 /\
  ~ (-128 <= 1000 <= 127) /\
  Factory_register_type [Integer 1000; Point; Integer 5] the_factory factory_world
    = (factory_world, inl (Exn rb_eArgError expected_Hash)) /\
  ~ (exists w' m,
       Factory_register_type [Integer 1000; Point; Integer 5] the_factory factory_world
         = (w', inl (Exn rb_eRangeError m))).
Proof.
  split; [reflexivity|]. split; [reflexivity|]. split; [lia|].
  split; [vm_compute; reflexivity|].
  intros (w' & m & H). vm_compute in H. discriminate H.
Qed.

(** C3, amended: in the two-argument form, and in the three-argument form
    once the options are a Hash, a code whose integer value lies outside
    [-128, 127] makes the call raise a RangeError and leaves the store alone;
    and in every call whatever, a code whose integer value lies inside the
    range raises no RangeError. *)
Theorem code_range_check argv self fc w n :
  DATA_PTR self w = Some (FactoryData fc) ->
  integer_value (arg argv 0) = Some n ->
  (passes_switch argv -> n < -128 \/ 127 < n ->
   exists m, Factory_register_type argv self w = (w, inl (Exn rb_eRangeError m))) /\
  (-128 <= n <= 127 ->
   forall m, outcome (Factory_register_type argv self w) <> inl (Exn rb_eRangeError m)).
Proof.
  intros Hself Hn. rewrite Factory_register_type_eq, Hself. unfold resolve.
  rewrite (rb_num2int_integer_value _ _ Hn). split.
  - intros Hsw Hout. destruct (passes_switch_hook_arguments _ Hsw) as (pa & ua & ->).
    case_bool_decide; [|by eauto].
    rewrite bool_decide_eq_true_2 by lia. eauto.
  - intros Hin m. unfold INT_MIN, INT_MAX.
    destruct (hook_arguments argv) as [e|[pa ua]] eqn:Hargs.
    + unfold hook_arguments in Hargs. simpl.
      destruct (length argv) as [|[|[|[|k]]]]; try congruence.
      case_bool_decide; congruence.
    + rewrite bool_decide_eq_true_2 by lia.
      rewrite bool_decide_eq_false_2 by lia.
      case_bool_decide; [done|].
      destruct (packer_proc_of pa) as [e|pp] eqn:Hpp.
      { apply packer_proc_of_raises in Hpp. simpl. intros [= ->]. done. }
      destruct (unpacker_proc_of (arg argv 1) ua) as [e|up] eqn:Hup; [|done].
      apply unpacker_proc_of_raises in Hup. simpl. intros [= ->]. done.
Qed.

Lemma code_range_check_witness :
  (exists m, Factory_register_type [Integer (-129); Point; Hash []] the_factory factory_world
               = (factory_world, inl (Exn rb_eRangeError m))) /\
  (forall m, outcome (Factory_register_type [Integer 127; Comparable] the_factory factory_world)
               <> inl (Exn rb_eRangeError m)).
Proof.
  split.
  - apply (code_range_check [Integer (-129); Point; Hash []] the_factory
             the_factory_struct factory_world (-129)).
    + reflexivity.
    + reflexivity.
    + right. split; reflexivity.
    + lia.
  - apply (code_range_check [Integer 127; Comparable] the_factory
             the_factory_struct factory_world 127).
    + reflexivity.
    + reflexivity.
    + lia.
Defined.

(** ** The associated type *)

Lemma rb_num2int_raises v e :
  rb_num2int v = inl e ->
  exn_class e = rb_eTypeError \/ exn_class e = rb_eRangeError.
Proof.
  destruct (integer_convertible v) eqn:Hconv.
  - destruct (integer_value v) as [n|] eqn:Hn.
    + rewrite (rb_num2int_integer_value _ _ Hn).
      case_bool_decide; [done|]. intros [= <-]. by right.
    + destruct v as [ | | | z | [t|] | | | | | | | | | | k ms | ]; try done.
      * intros [= <-]. by right.
      * simpl in *.
        destruct (method_lookup "to_int" ms) as [[ | | | z | | | | | | | | | | | | ]|]; done.
  - rewrite (rb_num2int_not_convertible _ Hconv). intros [= <-]. by left.
Qed.

(** The code is validated before the type, as in steps 2 and 3 of the
    registration protocol: with code 1000 and an Integer in the place of the
    type, the call raises the RangeError of the code. *)
Lemma type_error_preceded_by_range_check :
  rb_type (arg [Integer 1000; Integer 5] 1) <> T_CLASS /\
  Factory_register_type [Integer 1000; Integer 5] the_factory factory_world
    = (factory_world, inl (Exn rb_eRangeError (too_big_for_signed_char 1000))) /\
  ~ (exists w' m,
       Factory_register_type [Integer 1000; Integer 5] the_factory factory_world
         = (w', inl (Exn rb_eArgError m))).
Proof.
  split; [vm_compute; discriminate|].
  split; [vm_compute; reflexivity|].
  intros (w' & m & H). vm_compute in H. discriminate H.
Qed.

(** C6: a call whose associated type is not a class, a module or a value that
    is no type, always fails and leaves the store alone; once the code has
    passed its own validation, which comes first, having an integer value
    within [-128, 127], the failure is an ArgumentError, and on a factory,
    past the [switch] on [argc], it is the ArgumentError of the type check.
    A call whose associated type is a class never raises the ArgumentError
    of the type check, whatever its other arguments are. *)
Theorem associated_type_check argv self w :
  (rb_type (arg argv 1) <> T_CLASS ->
   (exists e, Factory_register_type argv self w = (w, inl e)) /\
   (forall n,
      integer_value (arg argv 0) = Some n ->
      -128 <= n <= 127 ->
      (exists m, Factory_register_type argv self w = (w, inl (Exn rb_eArgError m))) /\
      (forall fc, DATA_PTR self w = Some (FactoryData fc) -> passes_switch argv ->
         Factory_register_type argv self w = (w, inl (Exn rb_eArgError expected_Class))))) /\
  (rb_type (arg argv 1) = T_CLASS ->
   outcome (Factory_register_type argv self w) <> inl (Exn rb_eArgError expected_Class)).
Proof.
  rewrite Factory_register_type_eq. split.
  - intros Hty. split.
    { destruct (DATA_PTR self w) as [[fc| |]|]; eauto.
      destruct (invalid_call_resolve argv) as [e ->]; [|by eauto].
      by do 3 right. }
    intros n Hn Hin. unfold resolve.
    rewrite (rb_num2int_integer_value _ _ Hn). unfold INT_MIN, INT_MAX.
    rewrite bool_decide_eq_true_2 by lia.
    rewrite bool_decide_eq_false_2 by lia.
    rewrite bool_decide_eq_true_2 by done. split.
    + destruct (DATA_PTR self w) as [[fc| |]|]; eauto.
      destruct (hook_arguments argv) as [e|[pa ua]] eqn:Hargs; [|by eauto].
      unfold hook_arguments in Hargs.
      destruct (length argv) as [|[|[|[|k]]]]; try (injection Hargs as <-; by eauto).
      * done.
      * case_bool_decide; [injection Hargs as <-; by eauto|done].
    + intros fc -> Hsw.
      by destruct (passes_switch_hook_arguments _ Hsw) as (pa & ua & ->).
  - intros Hty.
    destruct (DATA_PTR self w) as [[fc| |]|]; try done.
    unfold resolve.
    destruct (hook_arguments argv) as [e|[pa ua]] eqn:Hargs.
    + unfold hook_arguments in Hargs. simpl.
      destruct (length argv) as [|[|[|[|k]]]]; try congruence.
      case_bool_decide; congruence.
    + destruct (rb_num2int (arg argv 0)) as [e|n] eqn:Hcode.
      { simpl. intros [= ->]. by destruct (rb_num2int_raises _ _ Hcode). }
      case_bool_decide; [done|].
      rewrite (bool_decide_eq_false_2 (rb_type (arg argv 1) <> T_CLASS)) by tauto.
      destruct (packer_proc_of pa) as [e|pp] eqn:Hpp.
      { apply packer_proc_of_raises in Hpp. simpl. intros [= ->]. done. }
      destruct (unpacker_proc_of (arg argv 1) ua) as [e|up] eqn:Hup; [|done].
      apply unpacker_proc_of_raises in Hup. simpl. intros [= ->]. done.
Qed.

(** A module in the place of the type; and a class with a code that does not
    even convert. *)
Lemma associated_type_check_witness :
  Factory_register_type [Integer 1; Comparable] the_factory factory_world
    = (factory_world, inl (Exn rb_eArgError expected_Class)) /\
  outcome (Factory_register_type [Qnil; Point] the_factory factory_world)
    <> inl (Exn rb_eArgError expected_Class).
Proof.
  split.
  - refine (proj2 (proj2 (proj1 (associated_type_check [Integer 1; Comparable]
                                   the_factory factory_world) _) 1 _ _)
              the_factory_struct _ _).
    + simpl. discriminate.
    + reflexivity.
    + lia.
    + reflexivity.
    + left. reflexivity.
  - apply (associated_type_check [Qnil; Point] the_factory factory_world).
    reflexivity.
Defined.

(** ** Conversion of the code *)

(** A three-argument call whose code is nil and whose options are no Hash:
    the call raises the ArgumentError about the options, not a TypeError. *)
Lemma conversion_error_preceded_by_options_check :
  integer_convertible (arg [Qnil; Point; Integer 5] 0) = false /\
  Factory_register_type [Qnil; Point; Integer 5] the_factory factory_world
    = (factory_world, inl (Exn rb_eArgError expected_Hash)) /\
  ~ (exists w' m,
       Factory_register_type [Qnil; Point; Integer 5] the_factory factory_world
         = (w', inl (Exn rb_eTypeError m))).
Proof.
  split; [reflexivity|].
  split; [vm_compute; reflexivity|].
  intros (w' & m & H). vm_compute in H. discriminate H.
Qed.

(** C10, amended: [register_type] converts its first argument with
    [rb_num2int] before the range check, in the two-argument form and, once
    the options are a Hash, in the three-argument form: there a first
    argument that does not convert to an integer makes the call raise a
    TypeError, not a RangeError, and the store is left as it was. *)
Theorem code_conversion_error argv self fc w :
  DATA_PTR self w = Some (FactoryData fc) ->
  passes_switch argv ->
  integer_convertible (arg argv 0) = false ->
  Factory_register_type argv self w = (w, inl (Exn rb_eTypeError no_implicit_conversion)) /\
  Factory_pkrg_entries self (state (Factory_register_type argv self w))
    = Factory_pkrg_entries self w /\
  Factory_ukrg_entries self (state (Factory_register_type argv self w))
    = Factory_ukrg_entries self w.
Proof.
  intros Hself Hsw Hconv.
  assert (Factory_register_type argv self w
          = (w, inl (Exn rb_eTypeError no_implicit_conversion))) as ->; [|done].
  rewrite Factory_register_type_eq, Hself. unfold resolve.
  destruct (passes_switch_hook_arguments _ Hsw) as (pa & ua & ->).
  by rewrite (rb_num2int_not_convertible _ Hconv).
Qed.

Lemma code_conversion_error_witness :
  Factory_register_type [String "1"; Point; Hash []] the_factory factory_world
    = (factory_world, inl (Exn rb_eTypeError no_implicit_conversion)).
Proof.
  apply (code_conversion_error [String "1"; Point; Hash []] the_factory
           the_factory_struct factory_world).
  - reflexivity.
  - right. split; reflexivity.
  - reflexivity.
Defined.

(** ** The default hooks *)

(** Registering a class that has neither [to_msgpack_ext] nor
    [from_msgpack_ext] in the two-argument form: the call looks
    [from_msgpack_ext] up on the class and raises a NameError. *)
Lemma register_type_looks_up_from_msgpack_ext :
  rb_respond_to Plain "from_msgpack_ext" = false /\
  Factory_register_type [Integer 1; Plain] the_factory factory_world
    = (factory_world, inl (Exn rb_eNameError (undefined_method "from_msgpack_ext"))) /\
  ~ (exists w' v,
       Factory_register_type [Integer 1; Plain] the_factory factory_world = (w', inr v)).
Proof.
  split; [reflexivity|].
  split; [vm_compute; reflexivity|].
  intros (w' & v & H). vm_compute in H. discriminate H.
Qed.

(** C4, amended: in the two-argument form the packer hook is the Proc of the
    symbol [to_msgpack_ext], which sends that name to the object it is called
    with and is not looked up at registration, so that the instance methods of
    the class play no part; the unpacker hook is the Method object that
    [from_msgpack_ext] names on the associated class, looked up at
    registration and not called.  A class that answers to [from_msgpack_ext]
    is registered with these two hooks; for a class that does not, the call
    raises a NameError and the store is left as it was. *)
Theorem two_argument_defaults code c self fc w n :
  live_factory self fc w ->
  integer_value code = Some n ->
  -128 <= n <= 127 ->
  ("from_msgpack_ext" ∈ class_methods c ->
   exists w',
     Factory_register_type [code; Class c] self w = (w', inr Qnil) /\
     Factory_pkrg_entries self w' ≫= assoc_get (Class c)
       = Some (n, SymbolProc "to_msgpack_ext") /\
     Factory_ukrg_entries self w' ≫= assoc_get n
       = Some (Method (Class c) "from_msgpack_ext")) /\
  ("from_msgpack_ext" ∉ class_methods c ->
   Factory_register_type [code; Class c] self w
     = (w, inl (Exn rb_eNameError (undefined_method "from_msgpack_ext")))).
Proof.
  intros Hlive Hn Hin.
  assert (rb_num2int code = inr n) as Hcode.
  { rewrite (rb_num2int_integer_value _ _ Hn). unfold INT_MIN, INT_MAX.
    by rewrite bool_decide_eq_true_2 by lia. }
  rewrite Factory_register_type_eq, (proj1 Hlive).
  unfold resolve, hook_arguments, arg. simpl. rewrite Hcode.
  rewrite bool_decide_eq_false_2 by lia.
  unfold unpacker_proc_of. simpl.
  split; intros Hm.
  - rewrite bool_decide_eq_true_2 by done. eexists. split; [reflexivity|].
    apply (store_registration_entries self fc
             {| reg_type := n; reg_class := Class c;
                reg_packer_proc := SymbolProc "to_msgpack_ext";
                reg_unpacker_proc := Method (Class c) "from_msgpack_ext" |} w Hlive).
  - by rewrite bool_decide_eq_false_2.
Qed.

Lemma two_argument_defaults_witness :
  (exists w',
     Factory_register_type [Integer 1; Point] the_factory factory_world = (w', inr Qnil) /\
     Factory_pkrg_entries the_factory w' ≫= assoc_get Point
       = Some (1, SymbolProc "to_msgpack_ext") /\
     Factory_ukrg_entries the_factory w' ≫= assoc_get 1
       = Some (Method Point "from_msgpack_ext")) /\
  Factory_register_type [Integer 1; Plain] the_factory factory_world
    = (factory_world, inl (Exn rb_eNameError (undefined_method "from_msgpack_ext"))).
Proof.
  split.
  - apply (two_argument_defaults (Integer 1) _ the_factory the_factory_struct factory_world 1).
    + live_by_computation.
    + reflexivity.
    + lia.
    + apply (bool_decide_unpack _). vm_compute. exact I.
  - apply (two_argument_defaults (Integer 1) _ the_factory the_factory_struct factory_world 1).
    + live_by_computation.
    + reflexivity.
    + lia.
    + apply (bool_decide_unpack _). vm_compute. exact I.
Defined.

(** ** The hooks of the options *)

Lemma packer_proc_of_hook pa :
  packer_proc_of pa =
  match packer_hook pa with
  | Some ph => inr ph
  | None => inl (Exn rb_eNoMethodError (undefined_method "to_proc"))
  end.
Proof.
  unfold packer_proc_of, rb_funcall.
  destruct pa; reflexivity.
Qed.

Lemma unpacker_proc_of_hook c ua :
  match unpacker_hook c ua with
  | Some uh => unpacker_proc_of (Class c) ua = inr uh
  | None => exists name, unpacker_proc_of (Class c) ua = inl (Exn rb_eNameError (undefined_method name))
  end.
Proof.
  unfold unpacker_proc_of, unpacker_hook, rb_funcall, rb_obj_method.
  destruct ua; simpl; try reflexivity; try (by eauto);
    repeat case_bool_decide; simpl; try done; eauto;
    by destruct select (_ \/ _).
Qed.

(** The same value is accepted as the packer entry, where it is sent
    [to_proc], and refused as the unpacker entry, where its [call] method is
    asked for: the two entries are not normalized the same way. *)
Lemma unpacker_entry_not_normalized_as_packer_entry :
  rb_type Lazy <> T_SYMBOL /\ rb_type Lazy <> T_STRING /\ Lazy <> Qnil /\
  (exists w',
     Factory_register_type [Integer 1; Point; packer_only] the_factory factory_world
       = (w', inr Qnil) /\
     Factory_pkrg_entries the_factory w' = Some [(Point, (1, Proc 7))]) /\
  Factory_register_type [Integer 1; Point; unpacker_only] the_factory factory_world
    = (factory_world, inl (Exn rb_eNameError (undefined_method "call"))) /\
  packer_proc_of Lazy = inr (Proc 7) /\
  unpacker_proc_of Point Lazy <> packer_proc_of Lazy.
Proof.
  split; [discriminate|]. split; [discriminate|]. split; [discriminate|].
  split; [eexists; split; vm_compute; reflexivity|].
  split; [vm_compute; reflexivity|].
  split; [reflexivity|]. vm_compute. discriminate.
Qed.

(** C5, amended: in the three-argument form, with a code of integer value
    within [-128, 127], a class and options that are a Hash, the packer entry
    becomes [packer_hook] of it and the unpacker entry [unpacker_hook] of it.
    When both hooks exist the call succeeds, the encode registry maps the class
    to the code and the packer hook, and the decode registry maps the code to
    the unpacker hook; an absent entry is stored as the unset hook [Qnil].
    When the packer entry has no [to_proc] the call raises a NoMethodError,
    otherwise when the unpacker entry names no method of the class, or has no
    [call], a NameError; the store is then left as it was. *)
Theorem three_argument_hooks code c entries self fc w n :
  live_factory self fc w ->
  integer_value code = Some n ->
  -128 <= n <= 127 ->
  match packer_hook (rb_hash_lookup entries (Symbol "packer")),
        unpacker_hook c (rb_hash_lookup entries (Symbol "unpacker")) with
  | Some ph, Some uh =>
      exists w',
        Factory_register_type [code; Class c; Hash entries] self w = (w', inr Qnil) /\
        Factory_pkrg_entries self w' ≫= assoc_get (Class c) = Some (n, ph) /\
        Factory_ukrg_entries self w' ≫= assoc_get n = Some uh
  | None, _ =>
      Factory_register_type [code; Class c; Hash entries] self w
        = (w, inl (Exn rb_eNoMethodError (undefined_method "to_proc")))
  | Some _, None =>
      exists name,
        Factory_register_type [code; Class c; Hash entries] self w
          = (w, inl (Exn rb_eNameError (undefined_method name)))
  end.
Proof.
  intros Hlive Hn Hin.
  assert (rb_num2int code = inr n) as Hcode.
  { rewrite (rb_num2int_integer_value _ _ Hn). unfold INT_MIN, INT_MAX.
    by rewrite bool_decide_eq_true_2 by lia. }
  rewrite Factory_register_type_eq, (proj1 Hlive).
  unfold resolve, hook_arguments, arg. simpl. rewrite Hcode.
  rewrite bool_decide_eq_false_2 by lia.
  rewrite packer_proc_of_hook.
  destruct (packer_hook _) as [ph|]; [|done].
  pose proof (unpacker_proc_of_hook c (rb_hash_lookup entries (Symbol "unpacker"))) as Hu.
  destruct (unpacker_hook c _) as [uh|].
  - rewrite Hu. eexists. split; [reflexivity|].
    apply (store_registration_entries self fc
             {| reg_type := n; reg_class := Class c;
                reg_packer_proc := ph; reg_unpacker_proc := uh |} w Hlive).
  - destruct Hu as [name ->]. by eauto.
Qed.

Lemma three_argument_hooks_witness :
  exists w',
    Factory_register_type
      [Integer 1; Point; Hash [(Symbol "unpacker", String "from_msgpack_ext")]]
      the_factory factory_world = (w', inr Qnil) /\
    Factory_pkrg_entries the_factory w' ≫= assoc_get Point = Some (1, Qnil) /\
    Factory_ukrg_entries the_factory w' ≫= assoc_get 1
      = Some (Method Point "from_msgpack_ext").
Proof.
  assert (live_factory the_factory the_factory_struct factory_world) as Hlive
    by live_by_computation.
  assert (-128 <= 1 <= 127) as Hin by lia.
  exact (three_argument_hooks (Integer 1) Point_class
           [(Symbol "unpacker", String "from_msgpack_ext")]
           the_factory the_factory_struct factory_world 1 Hlive eq_refl Hin).
Defined.

(** * Further properties of the factory *)

(** ** The forms of [register_type] *)

(** X1: the two-argument form is the three-argument form with the options
    [packer: :to_msgpack_ext, unpacker: :from_msgpack_ext]: on every receiver
    and in every store the two calls return or raise the same and leave the
    same store. *)
Theorem two_argument_form_is_default_options code klass self w :
  Factory_register_type [code; klass] self w
  = Factory_register_type [code; klass; default_options] self w.
Proof.
  rewrite !Factory_register_type_eq.
  destruct (DATA_PTR self w) as [[fc| |]|]; reflexivity.
Qed.

(** X2: of the options only the values under the symbols [:packer] and
    [:unpacker] are read: two Hashes that agree on these two keys give the
    same call, whatever else they hold. *)
Theorem options_read_at_two_keys code klass o1 o2 self w :
  rb_type o1 = T_HASH ->
  rb_type o2 = T_HASH ->
  rb_hash_aref o1 (Symbol "packer") = rb_hash_aref o2 (Symbol "packer") ->
  rb_hash_aref o1 (Symbol "unpacker") = rb_hash_aref o2 (Symbol "unpacker") ->
  Factory_register_type [code; klass; o1] self w
  = Factory_register_type [code; klass; o2] self w.
Proof.
  intros H1 H2 Hp Hu. rewrite !Factory_register_type_eq.
  destruct (DATA_PTR self w) as [[fc| |]|]; try reflexivity.
  unfold resolve, hook_arguments, arg. simpl.
  rewrite H1, H2, Hp, Hu. reflexivity.
Qed.

Lemma options_read_at_two_keys_witness :
  Factory_register_type
    [Integer 1; Point; Hash [(String "packer", Proc 1); (Symbol "mode", Qtrue)]]
    the_factory factory_world
  = Factory_register_type [Integer 1; Point; Hash []] the_factory factory_world.
Proof.
  apply options_read_at_two_keys; reflexivity.
Defined.

(** ** Registrations side by side *)

Lemma store_registration_DATA_PTR obj fc r w :
  DATA_PTR obj (store_registration fc r w) = DATA_PTR obj w.
Proof. by destruct obj. Qed.

Lemma store_registration_pk_entries self fc r w :
  DATA_PTR self w = Some (FactoryData fc) ->
  Factory_pkrg_entries self (store_registration fc r w)
  = assoc_put (reg_class r) (reg_type r, reg_packer_proc r) <$> Factory_pkrg_entries self w.
Proof.
  intros Hself. unfold Factory_pkrg_entries.
  rewrite store_registration_DATA_PTR, Hself. simpl. apply lookup_alter_eq.
Qed.

Lemma store_registration_uk_entries self fc r w :
  DATA_PTR self w = Some (FactoryData fc) ->
  Factory_ukrg_entries self (store_registration fc r w)
  = assoc_put (reg_type r) (reg_unpacker_proc r) <$> Factory_ukrg_entries self w.
Proof.
  intros Hself. unfold Factory_ukrg_entries.
  rewrite store_registration_DATA_PTR, Hself. simpl. apply lookup_alter_eq.
Qed.

Lemma live_factory_entries self fc w :
  live_factory self fc w ->
  exists es us,
    Factory_pkrg_entries self w = Some es /\ Factory_ukrg_entries self w = Some us.
Proof.
  intros (Hself & [es He] & [us Hu]). exists es, us.
  unfold Factory_pkrg_entries, Factory_ukrg_entries. by rewrite Hself.
Qed.

(** The entries of a live factory after one registration that went through. *)
Lemma one_registration argv self fc w w' :
  live_factory self fc w ->
  Factory_register_type argv self w = (w', inr Qnil) ->
  exists r es us,
    resolve argv = inr r /\
    w' = store_registration fc r w /\
    Factory_pkrg_entries self w = Some es /\
    Factory_ukrg_entries self w = Some us /\
    Factory_pkrg_entries self w'
      = Some (assoc_put (reg_class r) (reg_type r, reg_packer_proc r) es) /\
    Factory_ukrg_entries self w'
      = Some (assoc_put (reg_type r) (reg_unpacker_proc r) us).
Proof.
  intros Hlive Hrun.
  destruct (live_factory_entries _ _ _ Hlive) as (es & us & Hes & Hus).
  destruct (Factory_register_type_inr _ _ _ _ _ _ (proj1 Hlive) Hrun) as (r & Hr & -> & _).
  exists r, es, us.
  rewrite (store_registration_pk_entries _ _ _ _ (proj1 Hlive)), Hes.
  rewrite (store_registration_uk_entries _ _ _ _ (proj1 Hlive)), Hus.
  done.
Qed.

(** X4: a registration that goes through changes the entry of its own type
    on the encode side and of its own code on the decode side, and no other:
    every other type and every other code reads as before. *)
Theorem registration_keeps_other_entries argv self fc w w' :
  live_factory self fc w ->
  Factory_register_type argv self w = (w', inr Qnil) ->
  exists m,
    rb_num2int (arg argv 0) = inr m /\
    (forall k, k <> arg argv 1 ->
       Factory_pkrg_entries self w' ≫= assoc_get k
       = Factory_pkrg_entries self w ≫= assoc_get k) /\
    (forall n, n <> m ->
       Factory_ukrg_entries self w' ≫= assoc_get n
       = Factory_ukrg_entries self w ≫= assoc_get n).
Proof.
  intros Hlive Hrun.
  destruct (one_registration _ _ _ _ _ Hlive Hrun)
    as (r & es & us & Hr & _ & -> & -> & -> & ->).
  destruct (resolve_inr _ _ Hr) as (Hn & _ & Hc & _).
  exists (reg_type r). split; [done|]. split.
  - intros k Hk. simpl. apply assoc_get_put_ne. congruence.
  - intros n Hne. simpl. apply assoc_get_put_ne. congruence.
Qed.

(** On the factory that has [Point] under code 1 with both hooks,
    [register_type(2, Plain, packer: ..., unpacker: "new")] leaves what
    [Point] and code 1 read. *)
Lemma registration_keeps_other_entries_witness :
  exists w',
    Factory_register_type [Integer 2; Plain; third_options] the_factory registered_once
      = (w', inr Qnil) /\
    Factory_pkrg_entries the_factory w' ≫= assoc_get Point = Some (1, Proc 1) /\
    Factory_ukrg_entries the_factory w' ≫= assoc_get 1 = Some (Method (Proc 2) "call") /\
    Factory_pkrg_entries the_factory w' ≫= assoc_get Plain = Some (2, Proc 3) /\
    Factory_ukrg_entries the_factory w' ≫= assoc_get 2 = Some (Method Plain "new").
Proof.
  exists (state (Factory_register_type [Integer 2; Plain; third_options]
                   the_factory registered_once)).
  destruct (registration_keeps_other_entries
              [Integer 2; Plain; third_options] the_factory the_factory_struct
              registered_once
              (state (Factory_register_type [Integer 2; Plain; third_options]
                        the_factory registered_once)))
    as (m & Hm & Hpk & Huk).
  - live_by_computation.
  - vm_compute. reflexivity.
  - injection Hm as <-.
    split; [vm_compute; reflexivity|].
    rewrite (Hpk Point) by discriminate. rewrite (Huk 1) by lia.
    vm_compute. repeat split.
Defined.

(** X6: when two different types are registered under one code, the encode
    side keeps both, each mapped to that code with its own packer hook, and
    the decode side keeps for the code the unpacker hook of the later call
    alone. *)
Theorem two_types_under_one_code argv1 argv2 self fc w w1 w2 n :
  live_factory self fc w ->
  rb_num2int (arg argv1 0) = inr n ->
  rb_num2int (arg argv2 0) = inr n ->
  arg argv1 1 <> arg argv2 1 ->
  Factory_register_type argv1 self w = (w1, inr Qnil) ->
  Factory_register_type argv2 self w1 = (w2, inr Qnil) ->
  exists r1 r2,
    resolve argv1 = inr r1 /\
    resolve argv2 = inr r2 /\
    Factory_pkrg_entries self w2 ≫= assoc_get (arg argv1 1)
      = Some (n, reg_packer_proc r1) /\
    Factory_pkrg_entries self w2 ≫= assoc_get (arg argv2 1)
      = Some (n, reg_packer_proc r2) /\
    Factory_ukrg_entries self w2 ≫= assoc_get n = Some (reg_unpacker_proc r2).
Proof.
  intros Hlive Hn1 Hn2 Hne Hrun1 Hrun2.
  pose proof (Factory_register_type_live _ _ _ _ _ _ Hlive Hrun1) as Hlive1.
  destruct (one_registration _ _ _ _ _ Hlive Hrun1)
    as (r1 & es & us & Hr1 & _ & _ & _ & Hes1 & Hus1).
  destruct (one_registration _ _ _ _ _ Hlive1 Hrun2)
    as (r2 & es' & us' & Hr2 & _ & Hes1' & Hus1' & -> & ->).
  destruct (resolve_inr _ _ Hr1) as (Hm1 & _ & Hc1 & _).
  destruct (resolve_inr _ _ Hr2) as (Hm2 & _ & Hc2 & _).
  assert (reg_type r1 = n) as Ht1 by congruence.
  assert (reg_type r2 = n) as Ht2 by congruence.
  assert (es' = assoc_put (reg_class r1) (reg_type r1, reg_packer_proc r1) es) as ->
    by congruence.
  exists r1, r2. simpl. rewrite Hc1, Hc2, Ht1, Ht2.
  rewrite !assoc_get_put_eq, assoc_get_put_ne, assoc_get_put_eq by done.
  done.
Qed.

Lemma two_types_under_one_code_witness :
  exists r1 r2,
    resolve [Integer 1; Point; first_options] = inr r1 /\
    resolve [Integer 1; Plain; second_options] = inr r2 /\
    Factory_pkrg_entries the_factory
      (state (Factory_register_type [Integer 1; Plain; second_options]
                the_factory registered_once)) ≫= assoc_get Point
      = Some (1, reg_packer_proc r1) /\
    Factory_pkrg_entries the_factory
      (state (Factory_register_type [Integer 1; Plain; second_options]
                the_factory registered_once)) ≫= assoc_get Plain
      = Some (1, reg_packer_proc r2) /\
    Factory_ukrg_entries the_factory
      (state (Factory_register_type [Integer 1; Plain; second_options]
                the_factory registered_once)) ≫= assoc_get 1
      = Some (reg_unpacker_proc r2).
Proof.
  apply (two_types_under_one_code
           [Integer 1; Point; first_options] [Integer 1; Plain; second_options]
           the_factory the_factory_struct factory_world registered_once _ 1).
  - live_by_computation.
  - reflexivity.
  - reflexivity.
  - discriminate.
  - vm_compute. reflexivity.
  - vm_compute. reflexivity.
Defined.

Section assoc_order.
Context {K V : Type} `{EqDecision K}.

Lemma assoc_get_put k k' (v : V) (l : list (K * V)) :
  assoc_get k' (assoc_put k v l) = if bool_decide (k = k') then Some v else assoc_get k' l.
Proof.
  case_bool_decide as Hk.
  - subst. apply assoc_get_put_eq.
  - by apply assoc_get_put_ne.
Qed.

Lemma assoc_put_commute_get k1 k2 (v1 v2 : V) (l : list (K * V)) k :
  k1 <> k2 ->
  assoc_get k (assoc_put k2 v2 (assoc_put k1 v1 l))
  = assoc_get k (assoc_put k1 v1 (assoc_put k2 v2 l)).
Proof.
  intros Hne. rewrite !assoc_get_put.
  repeat case_bool_decide; congruence.
Qed.
End assoc_order.

Lemma register_both_eq argv1 argv2 self fc w :
  DATA_PTR self w = Some (FactoryData fc) ->
  register_both argv1 argv2 self w =
  match resolve argv1 with
  | inl e => (w, inl e)
  | inr r1 =>
      match resolve argv2 with
      | inl e => (store_registration fc r1 w, inl e)
      | inr r2 => (store_registration fc r2 (store_registration fc r1 w), inr Qnil)
      end
  end.
Proof.
  intros Hself. unfold register_both, bind.
  rewrite Factory_register_type_eq, Hself.
  destruct (resolve argv1) as [e|r1]; [done|].
  rewrite Factory_register_type_eq, store_registration_DATA_PTR, Hself.
  by destruct (resolve argv2).
Qed.

(** X7: registrations of different types under different codes commute:
    one order goes through exactly when the other does, and then in the two
    resulting stores the factory reads the same under every type and under
    every code. *)
Theorem independent_registrations_commute argv1 argv2 self fc w :
  live_factory self fc w ->
  arg argv1 1 <> arg argv2 1 ->
  rb_num2int (arg argv1 0) <> rb_num2int (arg argv2 0) ->
  (outcome (register_both argv1 argv2 self w) = inr Qnil <->
   outcome (register_both argv2 argv1 self w) = inr Qnil) /\
  (outcome (register_both argv1 argv2 self w) = inr Qnil ->
   (forall k,
      Factory_pkrg_entries self (state (register_both argv1 argv2 self w)) ≫= assoc_get k
      = Factory_pkrg_entries self (state (register_both argv2 argv1 self w)) ≫= assoc_get k) /\
   (forall n,
      Factory_ukrg_entries self (state (register_both argv1 argv2 self w)) ≫= assoc_get n
      = Factory_ukrg_entries self (state (register_both argv2 argv1 self w)) ≫= assoc_get n)).
Proof.
  intros Hlive Hty Hcode.
  destruct (live_factory_entries _ _ _ Hlive) as (es & us & Hes & Hus).
  destruct Hlive as (Hself & _ & _).
  rewrite !(register_both_eq _ _ _ _ _ Hself).
  destruct (resolve argv1) as [e1|r1] eqn:Hr1, (resolve argv2) as [e2|r2] eqn:Hr2;
    try (split; [split|]; done).
  destruct (resolve_inr _ _ Hr1) as (Hm1 & _ & Hc1 & _).
  destruct (resolve_inr _ _ Hr2) as (Hm2 & _ & Hc2 & _).
  split; [done|]. intros _. unfold state. simpl.
  rewrite !store_registration_pk_entries, !store_registration_uk_entries, Hes, Hus
    by (by rewrite ?store_registration_DATA_PTR).
  simpl. split.
  - intros k. apply assoc_put_commute_get. congruence.
  - intros n. apply assoc_put_commute_get. congruence.
Qed.

(** [Point] under code 1 and [Plain] under code 2 on the new factory: both
    orders go through, and the factory reads the same after either. *)
Lemma independent_registrations_commute_witness :
  outcome (register_both [Integer 1; Point; first_options] [Integer 2; Plain; third_options]
             the_factory factory_world) = inr Qnil /\
  outcome (register_both [Integer 2; Plain; third_options] [Integer 1; Point; first_options]
             the_factory factory_world) = inr Qnil /\
  Factory_pkrg_entries the_factory
    (state (register_both [Integer 2; Plain; third_options]
              [Integer 1; Point; first_options] the_factory factory_world))
    ≫= assoc_get Point = Some (1, Proc 1) /\
  Factory_ukrg_entries the_factory
    (state (register_both [Integer 2; Plain; third_options]
              [Integer 1; Point; first_options] the_factory factory_world))
    ≫= assoc_get 2 = Some (Method Plain "new").
Proof.
  destruct (independent_registrations_commute
              [Integer 1; Point; first_options] [Integer 2; Plain; third_options]
              the_factory the_factory_struct factory_world)
    as ([Hto _] & Hsame).
  - live_by_computation.
  - discriminate.
  - discriminate.
  - assert (outcome (register_both [Integer 1; Point; first_options]
                       [Integer 2; Plain; third_options] the_factory factory_world)
            = inr Qnil) as H12 by (vm_compute; reflexivity).
    destruct (Hsame H12) as [Hpk Huk].
    split; [exact H12|]. split; [exact (Hto H12)|].
    rewrite <- (Hpk Point), <- (Huk 2). vm_compute. split; reflexivity.
Defined.

(** ** Invariants of the store *)

Section assoc_invariants.
Context {K V : Type} `{EqDecision K}.
Implicit Types (k : K) (v : V) (l : list (K * V)).

Lemma elem_of_assoc_put e k v l :
  e ∈ assoc_put k v l -> e = (k, v) \/ e ∈ l.
Proof.
  induction l as [|[k0 v0] l IH]; simpl.
  - intros ->%list_elem_of_singleton. by left.
  - case_bool_decide.
    + intros [->|?]%elem_of_cons; [by left|]. right. by apply list_elem_of_further.
    + intros [->|?]%elem_of_cons; [right; by apply list_elem_of_here|].
      destruct IH as [?|?]; [done|by left|]. right. by apply list_elem_of_further.
Qed.

Lemma elem_of_assoc_put_keys x k v l :
  x ∈ (assoc_put k v l).*1 -> x = k \/ x ∈ l.*1.
Proof.
  intros ([k' v'] & -> & [->|Hin]%elem_of_assoc_put)%list_elem_of_fmap; [by left|].
  right. apply list_elem_of_fmap. by exists (k', v').
Qed.

Lemma NoDup_assoc_put k v l : NoDup l.*1 -> NoDup (assoc_put k v l).*1.
Proof.
  induction l as [|[k0 v0] l IH]; simpl.
  - intros _. apply NoDup_singleton.
  - intros [Hk0 Hl]%NoDup_cons. case_bool_decide as Hk; simpl.
    + subst k0. by apply NoDup_cons.
    + apply NoDup_cons. split; [|by apply IH].
      intros [->|?]%elem_of_assoc_put_keys; done.
Qed.

Lemma Forall_assoc_put (P : K * V -> Prop) k v l :
  P (k, v) -> Forall P l -> Forall P (assoc_put k v l).
Proof.
  intros Hkv Hl. apply Forall_forall. intros e [->|He]%elem_of_assoc_put; [done|].
  by eapply Forall_forall in Hl.
Qed.

Lemma assoc_get_put_is_Some k k' v l :
  is_Some (assoc_get k' l) -> is_Some (assoc_get k' (assoc_put k v l)).
Proof. rewrite assoc_get_put. case_bool_decide; eauto. Qed.
End assoc_invariants.

Lemma pk_entries_ok_put k n p es :
  rb_type k = T_CLASS -> -128 <= n <= 127 ->
  pk_entries_ok es -> pk_entries_ok (assoc_put k (n, p) es).
Proof.
  intros Hk Hn [Hnd Hall]. split; [by apply NoDup_assoc_put|].
  by apply Forall_assoc_put.
Qed.

Lemma uk_entries_ok_put n p us :
  -128 <= n <= 127 -> uk_entries_ok us -> uk_entries_ok (assoc_put n p us).
Proof.
  intros Hn [Hnd Hall]. split; [by apply NoDup_assoc_put|].
  by apply Forall_assoc_put.
Qed.

Lemma pk_entries_ok_nil : pk_entries_ok [].
Proof. split; [apply NoDup_nil_2|apply Forall_nil_2]. Qed.

Lemma uk_entries_ok_nil : uk_entries_ok [].
Proof. split; [apply NoDup_nil_2|apply Forall_nil_2]. Qed.

Lemma covered_put k n p u es us :
  covered es us -> covered (assoc_put k (n, p) es) (assoc_put n u us).
Proof.
  intros Hcov e [->|He]%elem_of_assoc_put; simpl.
  - rewrite assoc_get_put_eq. by eexists.
  - by apply assoc_get_put_is_Some, Hcov.
Qed.

Lemma wf_world_empty c : wf_world (initial_world c).
Proof. split; simpl; intros *; by rewrite ?lookup_empty. Qed.

(** A store that gains one object, whose registries sit in storage that was
    not there before, stays well formed. *)
Lemma wf_world_add w a d pk' uk' :
  wf_world w ->
  objects w !! a = None ->
  pk_storage w ⊆ pk' ->
  uk_storage w ⊆ uk' ->
  (forall h, pk_handle d = Some h -> pk_storage w !! h = None /\ is_Some (pk' !! h)) ->
  (forall h, uk_handle d = Some h -> uk_storage w !! h = None /\ is_Some (uk' !! h)) ->
  (forall h es, pk' !! h = Some es -> pk_entries_ok es) ->
  (forall h us, uk' !! h = Some us -> uk_entries_ok us) ->
  (forall fc es us, d = FactoryData fc ->
     pk' !! pk_hash (pkrg fc) = Some es -> uk' !! uk_array (ukrg fc) = Some us ->
     covered es us) ->
  wf_world {| classes := classes w; objects := <[a := d]> (objects w); pk_storage := pk'; uk_storage := uk' |}.
Proof.
  intros Hwf Ha Hpk Huk Hpd Hud Hpok Huok Hcov. split; simpl.
  - intros a0 d0 h [[<- <-]|[Hne Hold]]%lookup_insert_Some Hh; [by apply Hpd|].
    destruct (wf_pk_live _ Hwf _ _ _ Hold Hh) as [es Hes].
    exists es. by eapply lookup_weaken.
  - intros a0 d0 h [[<- <-]|[Hne Hold]]%lookup_insert_Some Hh; [by apply Hud|].
    destruct (wf_uk_live _ Hwf _ _ _ Hold Hh) as [us Hus].
    exists us. by eapply lookup_weaken.
  - intros a1 a2 d1 d2 h [[<- <-]|[Hne1 Hold1]]%lookup_insert_Some
      [[<- <-]|[Hne2 Hold2]]%lookup_insert_Some H1 H2; try done.
    + destruct (wf_pk_live _ Hwf _ _ _ Hold2 H2) as [es Hes].
      destruct (Hpd _ H1) as [Hnone _]. congruence.
    + destruct (wf_pk_live _ Hwf _ _ _ Hold1 H1) as [es Hes].
      destruct (Hpd _ H2) as [Hnone _]. congruence.
    + by eapply (wf_pk_sep _ Hwf).
  - intros a1 a2 d1 d2 h [[<- <-]|[Hne1 Hold1]]%lookup_insert_Some
      [[<- <-]|[Hne2 Hold2]]%lookup_insert_Some H1 H2; try done.
    + destruct (wf_uk_live _ Hwf _ _ _ Hold2 H2) as [us Hus].
      destruct (Hud _ H1) as [Hnone _]. congruence.
    + destruct (wf_uk_live _ Hwf _ _ _ Hold1 H1) as [us Hus].
      destruct (Hud _ H2) as [Hnone _]. congruence.
    + by eapply (wf_uk_sep _ Hwf).
  - done.
  - done.
  - intros a0 fc es us [[<- Hd]|[Hne Hold]]%lookup_insert_Some Hes Hus; [by eapply Hcov|].
    destruct (wf_pk_live _ Hwf _ _ _ Hold eq_refl) as [es0 Hes0].
    destruct (wf_uk_live _ Hwf _ _ _ Hold eq_refl) as [us0 Hus0].
    pose proof (lookup_weaken _ _ _ _ Hes0 Hpk) as Hes'.
    pose proof (lookup_weaken _ _ _ _ Hus0 Huk) as Hus'.
    simpl in *. assert (es = es0) as -> by congruence.
    assert (us = us0) as -> by congruence.
    by eapply (wf_covered _ Hwf).
Qed.

Lemma insert_fresh_ok {A} (P : A -> Prop) (m : gmap addr A) h x :
  P x -> (forall h' y, m !! h' = Some y -> P y) ->
  forall h' y, <[h := x]> m !! h' = Some y -> P y.
Proof.
  intros Hx Hm h' y [[<- <-]|[_ Hold]]%lookup_insert_Some; [done|by eapply Hm].
Qed.

Lemma wf_world_alloc w : wf_world w -> wf_world (state (Factory_alloc w)).
Proof.
  intros Hwf. rewrite Factory_alloc_eq. unfold state. simpl.
  apply wf_world_add; try done.
  - apply fresh_lookup_None.
  - apply insert_subseteq, fresh_lookup_None.
  - apply insert_subseteq, fresh_lookup_None.
  - intros h [= <-]. split; [apply fresh_lookup_None|]. rewrite lookup_insert_eq. by eexists.
  - intros h [= <-]. split; [apply fresh_lookup_None|]. rewrite lookup_insert_eq. by eexists.
  - apply insert_fresh_ok; [apply pk_entries_ok_nil|apply (wf_pk_ok _ Hwf)].
  - apply insert_fresh_ok; [apply uk_entries_ok_nil|apply (wf_uk_ok _ Hwf)].
  - intros fc es us [= <-]. simpl. rewrite lookup_insert_eq. intros [= <-] _ e He.
    by apply elem_of_nil in He.
Qed.

Lemma Factory_new_state argv w : state (Factory_new argv w) = state (Factory_alloc w).
Proof.
  unfold Factory_new, bind. rewrite Factory_alloc_eq, Factory_initialize_eq. simpl.
  rewrite lookup_insert_eq. by destruct (length argv).
Qed.

Lemma Factory_initialize_state argv self w : state (Factory_initialize argv self w) = w.
Proof.
  rewrite Factory_initialize_eq.
  destruct (DATA_PTR self w) as [[fc| |]|]; try done. by destruct (length argv).
Qed.

Lemma DATA_PTR_Some obj w d :
  DATA_PTR obj w = Some d -> exists a, obj = Data a /\ objects w !! a = Some d.
Proof. destruct obj; try done. simpl. eauto. Qed.

Lemma wf_world_store_registration w a fc argv r :
  wf_world w ->
  objects w !! a = Some (FactoryData fc) ->
  resolve argv = inr r ->
  wf_world (store_registration fc r w).
Proof.
  intros Hwf Ha Hr.
  destruct (resolve_inr _ _ Hr) as (_ & Hrange & Hc & Hty & _).
  rewrite <- Hc in Hty.
  split; simpl.
  - intros a0 d0 h Hd Hh. apply lookup_alter_is_Some. by eapply (wf_pk_live _ Hwf).
  - intros a0 d0 h Hd Hh. apply lookup_alter_is_Some. by eapply (wf_uk_live _ Hwf).
  - apply (wf_pk_sep _ Hwf).
  - apply (wf_uk_sep _ Hwf).
  - intros h es [[<- (es0 & Hes0 & ->)]|[_ Hes]]%lookup_alter_Some.
    + apply pk_entries_ok_put; [done..|]. by eapply (wf_pk_ok _ Hwf).
    + by eapply (wf_pk_ok _ Hwf).
  - intros h us [[<- (us0 & Hus0 & ->)]|[_ Hus]]%lookup_alter_Some.
    + apply uk_entries_ok_put; [done|]. by eapply (wf_uk_ok _ Hwf).
    + by eapply (wf_uk_ok _ Hwf).
  - intros a0 fc0 es us Ha0.
    destruct (decide (a0 = a)) as [->|Hne].
    + assert (fc0 = fc) as -> by congruence.
      rewrite !lookup_alter_eq.
      destruct (pk_storage w !! pk_hash (pkrg fc)) as [es0|] eqn:Hes0; [|done].
      destruct (uk_storage w !! uk_array (ukrg fc)) as [us0|] eqn:Hus0; [|done].
      simpl. intros [= <-] [= <-]. apply covered_put.
      by eapply (wf_covered _ Hwf).
    + rewrite !lookup_alter_ne.
      * by eapply (wf_covered _ Hwf).
      * intros Heq. apply Hne. symmetry.
        eapply (wf_uk_sep _ Hwf); [exact Ha|exact Ha0|done|]. simpl. by rewrite Heq.
      * intros Heq. apply Hne. symmetry.
        eapply (wf_pk_sep _ Hwf); [exact Ha|exact Ha0|done|]. simpl. by rewrite Heq.
Qed.

Lemma wf_world_register_type argv self w :
  wf_world w -> wf_world (state (Factory_register_type argv self w)).
Proof.
  intros Hwf. rewrite Factory_register_type_eq.
  destruct (DATA_PTR self w) as [[fc| |]|] eqn:Hself; try done.
  destruct (resolve argv) as [e|r] eqn:Hr; [done|].
  destruct (DATA_PTR_Some _ _ _ Hself) as (a & -> & Ha).
  by eapply wf_world_store_registration.
Qed.

Lemma Factory_packer_not_factory argv self w :
  (forall fc, DATA_PTR self w <> Some (FactoryData fc)) ->
  Factory_packer argv self w = (w, inl (Exn rb_eArgError NULL_found)).
Proof.
  intros Hno. unfold Factory_packer, bind, FACTORY.
  destruct (DATA_PTR self w) as [[fc| |]|]; try done. by destruct (Hno fc).
Qed.

Lemma Factory_unpacker_not_factory argv self w :
  (forall fc, DATA_PTR self w <> Some (FactoryData fc)) ->
  Factory_unpacker argv self w = (w, inl (Exn rb_eArgError NULL_found)).
Proof.
  intros Hno. unfold Factory_unpacker, bind, FACTORY.
  destruct (DATA_PTR self w) as [[fc| |]|]; try done. by destruct (Hno fc).
Qed.

Lemma wf_world_packer argv self w :
  wf_world w -> wf_world (state (Factory_packer argv self w)).
Proof.
  intros Hwf.
  destruct (DATA_PTR self w) as [[fc| |]|] eqn:Hself;
    try (rewrite Factory_packer_not_factory by (intros ?; congruence); done).
  destruct (DATA_PTR_Some _ _ _ Hself) as (a & -> & Ha).
  destruct (Packer_refuses (classes w) argv) as [e|] eqn:Hargs;
    [by rewrite (Factory_packer_refused _ _ _ _ _ Hself Hargs)|].
  destruct (wf_pk_live _ Hwf _ _ _ Ha eq_refl) as [es Hes].
  rewrite (Factory_packer_eq _ _ _ _ _ Hself Hargs Hes). unfold state. simpl.
  apply wf_world_add; try done.
  - apply fresh_lookup_None.
  - apply insert_subseteq, fresh_lookup_None.
  - intros h [= <-]. split; [apply fresh_lookup_None|]. rewrite lookup_insert_eq. by eexists.
  - apply insert_fresh_ok; [by eapply (wf_pk_ok _ Hwf)|apply (wf_pk_ok _ Hwf)].
  - apply (wf_uk_ok _ Hwf).
Qed.

Lemma wf_world_unpacker argv self w :
  wf_world w -> wf_world (state (Factory_unpacker argv self w)).
Proof.
  intros Hwf.
  destruct (DATA_PTR self w) as [[fc| |]|] eqn:Hself;
    try (rewrite Factory_unpacker_not_factory by (intros ?; congruence); done).
  destruct (DATA_PTR_Some _ _ _ Hself) as (a & -> & Ha).
  destruct (Unpacker_refuses (classes w) argv) as [e|] eqn:Hargs;
    [by rewrite (Factory_unpacker_refused _ _ _ _ _ Hself Hargs)|].
  destruct (wf_uk_live _ Hwf _ _ _ Ha eq_refl) as [us Hus].
  rewrite (Factory_unpacker_eq _ _ _ _ _ Hself Hargs Hus). unfold state. simpl.
  apply wf_world_add; try done.
  - apply fresh_lookup_None.
  - apply insert_subseteq, fresh_lookup_None.
  - intros h [= <-]. split; [apply fresh_lookup_None|]. rewrite lookup_insert_eq. by eexists.
  - apply (wf_pk_ok _ Hwf).
  - apply insert_fresh_ok; [by eapply (wf_uk_ok _ Hwf)|apply (wf_uk_ok _ Hwf)].
Qed.

Lemma step_wf_world w w' : wf_world w -> step w w' -> wf_world w'.
Proof.
  intros Hwf Hstep. destruct Hstep.
  - rewrite Factory_new_state. by apply wf_world_alloc.
  - by rewrite Factory_initialize_state.
  - by apply wf_world_register_type.
  - by apply wf_world_packer.
  - by apply wf_world_unpacker.
Qed.

Lemma reachable_wf_world w : reachable w -> wf_world w.
Proof.
  induction 1 as [|w w' _ IH Hstep]; [apply wf_world_empty|by eapply step_wf_world].
Qed.

Lemma assoc_get_elem_of {K V} `{EqDecision K} (k : K) (v : V) (l : list (K * V)) :
  assoc_get k l = Some v -> (k, v) ∈ l.
Proof.
  induction l as [|[k0 v0] l IH]; simpl; [done|].
  case_bool_decide as Hk.
  - intros [= ->]. subst. apply list_elem_of_here.
  - intros H'. by apply list_elem_of_further, IH.
Qed.

(** X8: in every store a program can build with the methods of the factory
    class, whatever arguments it passes and whether the calls return or
    raise, each registry of each factory, packer and unpacker has storage, and
    no two objects read a registry from the same storage. *)
Theorem reachable_registries_apart w :
  reachable w ->
  (forall a d h,
     objects w !! a = Some d -> pk_handle d = Some h -> is_Some (pk_storage w !! h)) /\
  (forall a d h,
     objects w !! a = Some d -> uk_handle d = Some h -> is_Some (uk_storage w !! h)) /\
  (forall a1 a2 d1 d2 h,
     objects w !! a1 = Some d1 -> objects w !! a2 = Some d2 -> a1 <> a2 ->
     pk_handle d1 = Some h -> pk_handle d2 <> Some h) /\
  (forall a1 a2 d1 d2 h,
     objects w !! a1 = Some d1 -> objects w !! a2 = Some d2 -> a1 <> a2 ->
     uk_handle d1 = Some h -> uk_handle d2 <> Some h).
Proof.
  intros Hwf%reachable_wf_world. split; [|split; [|split]].
  - apply (wf_pk_live _ Hwf).
  - apply (wf_uk_live _ Hwf).
  - intros a1 a2 d1 d2 h H1 H2 Hne Hh Hh'. apply Hne.
    exact (wf_pk_sep _ Hwf _ _ _ _ _ H1 H2 Hh Hh').
  - intros a1 a2 d1 d2 h H1 H2 Hne Hh Hh'. apply Hne.
    exact (wf_uk_sep _ Hwf _ _ _ _ _ H1 H2 Hh Hh').
Qed.

(** In the store with the new factory alone its two registries have storage;
    in the store with the factory and a packer of it, the packer reads from
    storage 1 and the factory from storage 0. *)
Lemma reachable_registries_apart_witness :
  is_Some (pk_storage factory_world !! 0%nat) /\
  is_Some (uk_storage factory_world !! 0%nat) /\
  pk_handle (PackerData {| pk_ext_registry := {| pk_hash := 1 |} |}) <> Some 0%nat.
Proof.
  destruct (reachable_registries_apart factory_world) as (Hpk & Huk & _).
  { exact (reachable_step _ _ (reachable_empty example_classes) (step_new [] empty_world)). }
  destruct (reachable_registries_apart with_p1) as (_ & _ & Hsep & _).
  { exact (reachable_step _ _
             (reachable_step _ _ (reachable_empty example_classes) (step_new [] empty_world))
             (step_packer [] the_factory factory_world)). }
  split; [|split].
  - apply (Hpk 0%nat (FactoryData the_factory_struct) 0%nat); reflexivity.
  - apply (Huk 0%nat (FactoryData the_factory_struct) 0%nat); reflexivity.
  - apply (Hsep 0%nat 1%nat (FactoryData the_factory_struct)
             (PackerData {| pk_ext_registry := {| pk_hash := 1 |} |}) 0%nat);
      [vm_compute; reflexivity | vm_compute; reflexivity | lia | reflexivity].
Defined.

Lemma reachable_entries_ok_pk w self es :
  reachable w ->
  Factory_pkrg_entries self w = Some es ->
  pk_entries_ok es.
Proof.
  intros Hwf%reachable_wf_world. unfold Factory_pkrg_entries.
  destruct (DATA_PTR self w) as [[fc| |]|]; try done.
  intros Hes. by eapply (wf_pk_ok _ Hwf).
Qed.

(** X9: in every such store the entries of every registry, of a factory or
    handed to a packer or an unpacker, fit the wire format: no key occurs
    twice, every code lies in [-128, 127], and every key of the encode side
    is a class. *)
Theorem reachable_entries_fit_wire_format w obj :
  reachable w ->
  (forall es,
     Factory_pkrg_entries obj w = Some es \/ Packer_entries obj w = Some es ->
     pk_entries_ok es) /\
  (forall us,
     Factory_ukrg_entries obj w = Some us \/ Unpacker_entries obj w = Some us ->
     uk_entries_ok us).
Proof.
  intros Hwf%reachable_wf_world.
  unfold Factory_pkrg_entries, Packer_entries, Factory_ukrg_entries, Unpacker_entries.
  split; intros es [H|H]; destruct (DATA_PTR obj w) as [[fc|pk|uk]|]; try done.
  - by eapply (wf_pk_ok _ Hwf).
  - by eapply (wf_pk_ok _ Hwf).
  - by eapply (wf_uk_ok _ Hwf).
  - by eapply (wf_uk_ok _ Hwf).
Qed.

Lemma reachable_entries_fit_wire_format_witness :
  pk_entries_ok [(Point, (1, Proc 1))].
Proof.
  refine (proj1 (reachable_entries_fit_wire_format registered_once the_factory _) _ _).
  - exact (reachable_step _ _ (reachable_step _ _ (reachable_empty example_classes) (step_new [] empty_world))
             (step_register_type [Integer 1; Point; first_options]
                the_factory factory_world)).
  - left. vm_compute. reflexivity.
Defined.

(** X10: in every such store, every code under which a factory's encode
    registry tags a type has an entry in the decode registry of the same
    factory. *)
Theorem reachable_codes_covered w self es k n p :
  reachable w ->
  Factory_pkrg_entries self w = Some es ->
  assoc_get k es = Some (n, p) ->
  exists us u, Factory_ukrg_entries self w = Some us /\ assoc_get n us = Some u.
Proof.
  intros Hwf%reachable_wf_world. unfold Factory_pkrg_entries, Factory_ukrg_entries.
  destruct (DATA_PTR self w) as [[fc| |]|] eqn:Hself; try done.
  destruct (DATA_PTR_Some _ _ _ Hself) as (a & -> & Ha).
  intros Hes Hk%assoc_get_elem_of.
  destruct (wf_uk_live _ Hwf _ _ _ Ha eq_refl) as [us Hus].
  destruct (wf_covered _ Hwf _ _ _ _ Ha Hes Hus _ Hk) as [u Hu].
  by exists us, u.
Qed.

Lemma reachable_codes_covered_witness :
  exists us u,
    Factory_ukrg_entries the_factory registered_once = Some us /\ assoc_get 1 us = Some u.
Proof.
  apply (reachable_codes_covered registered_once the_factory
           [(Point, (1, Proc 1))] Point 1 (Proc 1)).
  - exact (reachable_step _ _ (reachable_step _ _ (reachable_empty example_classes) (step_new [] empty_world))
             (step_register_type [Integer 1; Point; first_options]
                the_factory factory_world)).
  - vm_compute. reflexivity.
  - vm_compute. reflexivity.
Defined.

(** X11: factories are isolated.  In every such store a call of
    [register_type] on one object, whether it returns or raises, leaves the
    registries of every other object as they were: those of the other
    factories, and those of every packer and unpacker, the ones the receiver
    made included. *)
Theorem register_type_touches_receiver_only argv self w w' res obj :
  reachable w ->
  Factory_register_type argv self w = (w', res) ->
  obj <> self ->
  Factory_pkrg_entries obj w' = Factory_pkrg_entries obj w /\
  Factory_ukrg_entries obj w' = Factory_ukrg_entries obj w /\
  Packer_entries obj w' = Packer_entries obj w /\
  Unpacker_entries obj w' = Unpacker_entries obj w.
Proof.
  intros Hwf%reachable_wf_world Hrun Hne.
  destruct (DATA_PTR self w) as [[fc| |]|] eqn:Hself.
  2-4: rewrite Factory_register_type_eq, Hself in Hrun; by injection Hrun as <- <-.
  destruct (Factory_register_type_frame _ _ _ _ _ _ Hself Hrun) as (Ho & Hpk & Huk & _).
  destruct (DATA_PTR_Some _ _ _ Hself) as (a & -> & Ha).
  unfold Factory_pkrg_entries, Factory_ukrg_entries, Packer_entries, Unpacker_entries.
  assert (DATA_PTR obj w' = DATA_PTR obj w) as -> by (destruct obj; simpl; congruence).
  destruct (DATA_PTR obj w) as [d|] eqn:Hobj; [|done].
  destruct (DATA_PTR_Some _ _ _ Hobj) as (a' & -> & Ha').
  assert (a <> a') as Hne' by congruence.
  assert (forall h, pk_handle d = Some h -> pk_storage w' !! h = pk_storage w !! h) as Hp.
  { intros h Hh. apply Hpk. intros ->. apply Hne'.
    by eapply (wf_pk_sep _ Hwf); [exact Ha|exact Ha'|..]. }
  assert (forall h, uk_handle d = Some h -> uk_storage w' !! h = uk_storage w !! h) as Hu.
  { intros h Hh. apply Huk. intros ->. apply Hne'.
    by eapply (wf_uk_sep _ Hwf); [exact Ha|exact Ha'|..]. }
  destruct d; simpl in *; repeat split; auto.
Qed.

Lemma register_type_touches_receiver_only_witness :
  Packer_entries (Data 1)
    (state (Factory_register_type [Integer 1; Point] the_factory with_p1))
  = Packer_entries (Data 1) with_p1.
Proof.
  refine (proj1 (proj2 (proj2 (register_type_touches_receiver_only
            [Integer 1; Point] the_factory with_p1 _ (inr Qnil) (Data 1) _ _ _)))).
  - exact (reachable_step _ _ (reachable_step _ _ (reachable_empty example_classes) (step_new [] empty_world))
             (step_packer [] the_factory factory_world)).
  - vm_compute. reflexivity.
  - discriminate.
Defined.

(** ** A type that changes its code *)

Lemma NoDup_keys_unique {K V} (l : list (K * V)) k v v' :
  NoDup l.*1 -> (k, v) ∈ l -> (k, v') ∈ l -> v = v'.
Proof.
  induction l as [|[k0 v0] l IH]; simpl.
  - intros _ H. by apply elem_of_nil in H.
  - intros [Hk0 Hl]%NoDup_cons [[= -> ->]|H1]%elem_of_cons [[= ->]|H2]%elem_of_cons.
    + done.
    + destruct Hk0. apply list_elem_of_fmap. by exists (k0, v').
    + simplify_eq. destruct Hk0. apply list_elem_of_fmap. by exists (k0, v).
    + by apply IH.
Qed.

Lemma Factory_register_type_receiver argv self w w' v :
  Factory_register_type argv self w = (w', inr v) ->
  exists fc, DATA_PTR self w = Some (FactoryData fc).
Proof.
  rewrite Factory_register_type_eq.
  destruct (DATA_PTR self w) as [[fc| |]|]; try done. eauto.
Qed.

Lemma reachable_live_factory w self fc :
  reachable w -> DATA_PTR self w = Some (FactoryData fc) -> live_factory self fc w.
Proof.
  intros Hwf%reachable_wf_world Hself.
  destruct (DATA_PTR_Some _ _ _ Hself) as (a & -> & Ha).
  split; [done|]. split.
  - exact (wf_pk_live _ Hwf _ _ _ Ha eq_refl).
  - exact (wf_uk_live _ Hwf _ _ _ Ha eq_refl).
Qed.

(** X5: the two registries are keyed apart.  In every store a program can
    build, when a type registered under one code is registered again under
    another, the encode registry then holds one entry for the type and no
    more, with the new code and the packer hook of the second call, while the
    decode registry keeps the entry of the old code, with the unpacker hook of
    the first call, beside the entry of the new one. *)
Theorem type_registered_under_new_code argv1 argv2 self w w1 w2 n1 n2 :
  reachable w ->
  rb_num2int (arg argv1 0) = inr n1 ->
  rb_num2int (arg argv2 0) = inr n2 ->
  n1 <> n2 ->
  arg argv1 1 = arg argv2 1 ->
  Factory_register_type argv1 self w = (w1, inr Qnil) ->
  Factory_register_type argv2 self w1 = (w2, inr Qnil) ->
  exists r1 r2 es us,
    resolve argv1 = inr r1 /\
    resolve argv2 = inr r2 /\
    Factory_pkrg_entries self w2 = Some es /\
    Factory_ukrg_entries self w2 = Some us /\
    (arg argv2 1, (n2, reg_packer_proc r2)) ∈ es /\
    (forall e, e ∈ es -> e.1 = arg argv2 1 -> e = (arg argv2 1, (n2, reg_packer_proc r2))) /\
    assoc_get n1 us = Some (reg_unpacker_proc r1) /\
    assoc_get n2 us = Some (reg_unpacker_proc r2).
Proof.
  intros Hreach Hn1 Hn2 Hne Hty Hrun1 Hrun2.
  destruct (Factory_register_type_receiver _ _ _ _ _ Hrun1) as [fc Hself].
  pose proof (reachable_live_factory _ _ _ Hreach Hself) as Hlive.
  pose proof (Factory_register_type_live _ _ _ _ _ _ Hlive Hrun1) as Hlive1.
  assert (reachable w2) as Hreach2.
  { apply (reachable_step w1).
    - apply (reachable_step w); [done|].
      replace w1 with (state (Factory_register_type argv1 self w)) by (by rewrite Hrun1).
      constructor.
    - replace w2 with (state (Factory_register_type argv2 self w1)) by (by rewrite Hrun2).
      constructor. }
  destruct (one_registration _ _ _ _ _ Hlive Hrun1)
    as (r1 & es & us & Hr1 & _ & _ & _ & Hes1 & Hus1).
  destruct (one_registration _ _ _ _ _ Hlive1 Hrun2)
    as (r2 & es' & us' & Hr2 & _ & Hes1' & Hus1' & Hes2 & Hus2).
  destruct (resolve_inr _ _ Hr1) as (Hm1 & _ & Hc1 & _).
  destruct (resolve_inr _ _ Hr2) as (Hm2 & _ & Hc2 & _).
  assert (reg_type r1 = n1) as Ht1 by congruence.
  assert (reg_type r2 = n2) as Ht2 by congruence.
  assert (us' = assoc_put (reg_type r1) (reg_unpacker_proc r1) us) as -> by congruence.
  rewrite Hc2, Ht2 in Hes2. rewrite Ht1 in Hus2. rewrite Ht2 in Hus2.
  eexists r1, r2, _, _. do 4 (split; [done|]).
  assert ((arg argv2 1, (n2, reg_packer_proc r2))
          ∈ assoc_put (arg argv2 1) (n2, reg_packer_proc r2) es') as Hin
    by apply assoc_get_elem_of, assoc_get_put_eq.
  split; [done|]. split; [|split].
  - intros [k v] He Hk. simpl in Hk. subst k. f_equal.
    destruct (reachable_entries_ok_pk _ _ _ Hreach2 Hes2) as [Hnd _].
    exact (NoDup_keys_unique _ _ _ _ Hnd He Hin).
  - by rewrite assoc_get_put_ne, assoc_get_put_eq.
  - by rewrite assoc_get_put_eq.
Qed.

(** [Point] is registered under code 1 and then under code 2: the encode
    registry holds the one entry of code 2, the decode registry both codes. *)
Lemma type_registered_under_new_code_witness :
  exists es us,
    Factory_pkrg_entries the_factory
      (state (Factory_register_type [Integer 2; Point; second_options]
                the_factory registered_once)) = Some es /\
    Factory_ukrg_entries the_factory
      (state (Factory_register_type [Integer 2; Point; second_options]
                the_factory registered_once)) = Some us /\
    (forall e, e ∈ es -> e.1 = Point -> e = (Point, (2, Proc 3))) /\
    assoc_get 1 us = Some (Method (Proc 2) "call") /\
    assoc_get 2 us = Some Qnil.
Proof.
  destruct (type_registered_under_new_code
              [Integer 1; Point; first_options] [Integer 2; Point; second_options]
              the_factory factory_world registered_once
              (state (Factory_register_type [Integer 2; Point; second_options]
                        the_factory registered_once)) 1 2)
    as (r1 & r2 & es & us & Hr1 & Hr2 & Hes & Hus & _ & Honly & Hold & Hnew).
  - exact (reachable_step _ _ (reachable_empty example_classes) (step_new [] empty_world)).
  - reflexivity.
  - reflexivity.
  - lia.
  - reflexivity.
  - vm_compute. reflexivity.
  - vm_compute. reflexivity.
  - vm_compute in Hr1. injection Hr1 as <-.
    vm_compute in Hr2. injection Hr2 as <-.
    exists es, us. repeat split; assumption.
Defined.

(** ** Construction, finalization, marking *)



(** X13: the finalizer ignores a NULL pointer; on a factory it releases the
    struct and the storage of the factory's two registries and nothing else:
    in every store a program can build, every other object stays, and the
    registries of every other factory and of every packer and unpacker, the
    ones this factory made included, read as before. *)
Theorem Factory_free_releases_own_storage w a fc :
  reachable w ->
  objects w !! a = Some (FactoryData fc) ->
  Factory_free None w = (w, inr tt) /\
  exists w',
    Factory_free (Some a) w = (w', inr tt) /\
    DATA_PTR (Data a) w' = None /\
    pk_storage w' !! pk_hash (pkrg fc) = None /\
    uk_storage w' !! uk_array (ukrg fc) = None /\
    forall obj, obj <> Data a ->
      DATA_PTR obj w' = DATA_PTR obj w /\
      Factory_pkrg_entries obj w' = Factory_pkrg_entries obj w /\
      Factory_ukrg_entries obj w' = Factory_ukrg_entries obj w /\
      Packer_entries obj w' = Packer_entries obj w /\
      Unpacker_entries obj w' = Unpacker_entries obj w.
Proof.
  intros Hwf%reachable_wf_world Ha. split; [done|].
  unfold Factory_free. rewrite Ha.
  unfold bind, msgpack_packer_ext_registry_destroy,
    msgpack_unpacker_ext_registry_destroy, free. simpl.
  eexists. split; [reflexivity|]. simpl. rewrite !lookup_delete_eq.
  do 3 (split; [done|]).
  intros obj Hobj.
  unfold Factory_pkrg_entries, Factory_ukrg_entries, Packer_entries, Unpacker_entries.
  assert (DATA_PTR obj
            {| classes := classes w; objects := delete a (objects w);
               pk_storage := delete (pk_hash (pkrg fc)) (pk_storage w);
               uk_storage := delete (uk_array (ukrg fc)) (uk_storage w) |}
          = DATA_PTR obj w) as ->.
  { destruct obj; simpl; try done. apply lookup_delete_ne. congruence. }
  split; [done|].
  destruct (DATA_PTR obj w) as [d|] eqn:Hd; [|done].
  destruct (DATA_PTR_Some _ _ _ Hd) as (a' & -> & Ha').
  assert (a <> a') as Hne by congruence.
  assert (forall h, pk_handle d = Some h ->
            delete (pk_hash (pkrg fc)) (pk_storage w) !! h = pk_storage w !! h) as Hp.
  { intros h Hh. apply lookup_delete_ne. intros Heq. apply Hne.
    eapply (wf_pk_sep _ Hwf); [exact Ha|exact Ha'|done|]. by rewrite Heq. }
  assert (forall h, uk_handle d = Some h ->
            delete (uk_array (ukrg fc)) (uk_storage w) !! h = uk_storage w !! h) as Hu.
  { intros h Hh. apply lookup_delete_ne. intros Heq. apply Hne.
    eapply (wf_uk_sep _ Hwf); [exact Ha|exact Ha'|done|]. by rewrite Heq. }
  destruct d; simpl in *; repeat split; auto.
Qed.

Lemma Factory_free_releases_own_storage_witness :
  exists w',
    Factory_free (Some 0%nat) with_p1_p2 = (w', inr tt) /\
    Packer_entries (Data 2) w' = Some [(Point, (1, SymbolProc "to_msgpack_ext"))].
Proof.
  destruct (Factory_free_releases_own_storage with_p1_p2 0 the_factory_struct)
    as (_ & w' & Hrun & _ & _ & _ & Hothers).
  - exact (reachable_step _ _
             (reachable_step _ _
                (reachable_step _ _
                   (reachable_step _ _ (reachable_empty example_classes) (step_new [] empty_world))
                   (step_packer [] the_factory factory_world))
                (step_register_type [Integer 1; Point] the_factory with_p1))
             (step_packer [] the_factory with_p1_registered)).
  - vm_compute. reflexivity.
  - exists w'. split; [exact Hrun|].
    destruct (Hothers (Data 2)) as (_ & _ & _ & -> & _); [discriminate|].
    vm_compute. reflexivity.
Defined.

(** X14: what a factory can hand to a codec, the factory keeps alive.  After
    a registration that went through, [Factory_mark] marks the registered
    class and the packer and unpacker hooks just stored, beside the two
    options hashes; and whatever a lookup in either registry of the factory
    returns is marked. *)
Theorem Factory_mark_covers_registrations argv self fc w w' :
  live_factory self fc w ->
  Factory_register_type argv self w = (w', inr Qnil) ->
  (exists r,
     resolve argv = inr r /\
     arg argv 1 ∈ Factory_mark fc w' /\
     reg_packer_proc r ∈ Factory_mark fc w' /\
     reg_unpacker_proc r ∈ Factory_mark fc w') /\
  packer_options fc ∈ Factory_mark fc w' /\
  unpacker_options fc ∈ Factory_mark fc w' /\
  (forall es k n p,
     Factory_pkrg_entries self w' = Some es -> assoc_get k es = Some (n, p) ->
     k ∈ Factory_mark fc w' /\ p ∈ Factory_mark fc w') /\
  (forall us n u,
     Factory_ukrg_entries self w' = Some us -> assoc_get n us = Some u ->
     u ∈ Factory_mark fc w').
Proof.
  intros Hlive Hrun.
  pose proof (Factory_register_type_live _ _ _ _ _ _ Hlive Hrun) as (Hself' & _ & _).
  assert (forall es k n p,
            Factory_pkrg_entries self w' = Some es -> assoc_get k es = Some (n, p) ->
            k ∈ Factory_mark fc w' /\ p ∈ Factory_mark fc w') as Hpk.
  { intros es k n p. unfold Factory_pkrg_entries, Factory_mark,
      msgpack_packer_ext_registry_mark. rewrite Hself'.
    intros -> Hk%assoc_get_elem_of. simpl.
    split; do 2 apply list_elem_of_further; apply elem_of_app; left;
      apply list_elem_of_In, in_flat_map; exists (k, (n, p));
      (split; [by apply list_elem_of_In|simpl; auto]). }
  assert (forall us n u,
            Factory_ukrg_entries self w' = Some us -> assoc_get n us = Some u ->
            u ∈ Factory_mark fc w') as Huk.
  { intros us n u. unfold Factory_ukrg_entries, Factory_mark,
      msgpack_unpacker_ext_registry_mark. rewrite Hself'.
    intros -> Hk%assoc_get_elem_of. simpl.
    do 2 apply list_elem_of_further; apply elem_of_app; right;
      apply list_elem_of_In, in_flat_map; exists (n, u);
      (split; [by apply list_elem_of_In|simpl; auto]). }
  split; [|split; [|split]]; [| | |by split].
  - destruct (one_registration _ _ _ _ _ Hlive Hrun)
      as (r & es & us & Hr & _ & _ & _ & Hes' & Hus').
    destruct (resolve_inr _ _ Hr) as (_ & _ & Hc & _).
    exists r. split; [done|]. rewrite <- Hc.
    destruct (Hpk _ (reg_class r) (reg_type r) (reg_packer_proc r) Hes')
      as [? ?]; [apply assoc_get_put_eq|].
    pose proof (Huk _ (reg_type r) (reg_unpacker_proc r) Hus' (assoc_get_put_eq _ _ _)).
    done.
  - apply list_elem_of_here.
  - apply list_elem_of_further, list_elem_of_here.
Qed.

Lemma Factory_mark_covers_registrations_witness :
  Point ∈ Factory_mark the_factory_struct registered_once /\
  Proc 1 ∈ Factory_mark the_factory_struct registered_once /\
  Method (Proc 2) "call" ∈ Factory_mark the_factory_struct registered_once.
Proof.
  destruct (Factory_mark_covers_registrations [Integer 1; Point; first_options]
              the_factory the_factory_struct factory_world registered_once)
    as ((r & Hr & H1 & H2 & H3) & _).
  - live_by_computation.
  - vm_compute. reflexivity.
  - vm_compute in Hr. injection Hr as <-.
    split; [exact H1|]. split; [exact H2|exact H3].
Defined.
